(** * Error handling pipeline of the desktop client (src/errorHandling.ts)

    A shallow embedding of the module: JavaScript values, the shared object
    store, the process-wide [fyo] state, a state-and-exception monad for the
    (sequential) call chain of one handled error, and the functions of the
    module in the order in which the source declares them. [showErrorDialog]
    and the composer of issue reports ([getIssueUrlQuery], [reportIssue]) are
    not embedded: the first is called by nothing here, and the second only
    from the callbacks handed to the toast and the dialog, which are kept as
    data. *)

From Stdlib Require Import ZArith String Ascii DecimalString List Lia.
From stdpp Require Import base gmap strings list fin_maps.

Local Open Scope string_scope.
Local Open Scope list_scope.

(** ** JavaScript values *)

Definition loc := nat.

(** Object references are locations of the shared store; numbers are the
    integer-valued ones, which is all the module ever inspects. *)
#[warnings="-register-all"]
Inductive Val : Type :=
| VUndefined
| VNull
| VBool (b : bool)
| VNum (n : Z)
| VStr (s : string)
| VArr (vs : list Val)
| VRef (l : loc).

(** An object is its own-property table. *)
Abbreviation Obj := (gmap string Val).

(** [!!v] of JavaScript: every object is truthy, [0], the empty string,
    [false], [null] and [undefined] are not. *)
Definition truthy (v : Val) : bool :=
  match v with
  | VUndefined | VNull => false
  | VBool b => b
  | VNum n => negb (n =? 0)%Z
  | VStr s => negb (String.eqb s "")
  | VArr _ | VRef _ => true
  end.

(** [a ?? b] *)
Definition nullish (v : Val) : bool :=
  match v with
  | VUndefined | VNull => true
  | _ => false
  end.

Definition coalesce (a b : Val) : Val := if nullish a then b else a.

(** [v === 'literal'] *)
Definition strict_eq_str (v : Val) (s : string) : bool :=
  match v with
  | VStr s' => String.eqb s' s
  | _ => false
  end.

(** ** Records of the module *)

(** The fields of a raised error that the module reads. [shouldStore] is the
    optional capability of [BaseError]; [cause] is the ES2022 field. *)
Module Error.
Record obj := mk {
  name : Val;
  stack : Val;
  message : Val;
  cause : Val;
  shouldStore : Val }.
End Error.

(** [ErrorLog]: the module never writes to an entry after building it, so an
    entry is a value; its [more] is a reference into the shared store. *)
Module ErrorLog.
Record obj := mk {
  name : Val;
  stack : Val;
  message : Val;
  more : option loc }.
End ErrorLog.

(** The closures the module hands to the user interface, as data:
    [() => reportIssue(errorLogObj)],
    [action() { reportIssue(getErrorLogObject(error, { errorMessage })) }]
    and [action() {}]. *)
Inductive Callback : Type :=
| ReportIssue (errorLogObj : ErrorLog.obj)
| ReportIssueOfError (error : Error.obj) (errorMessage : string)
| NoAction.

Module ToastOptions.
Record obj := mk {
  message : Val;
  type : string;
  actionText : string;
  action : Callback }.
End ToastOptions.

Module Button.
Record obj := mk {
  label : string;
  action : Callback }.
End Button.

Module MessageDialogOptions.
Record obj := mk {
  message : string;
  detail : string;
  buttons : option (list Button.obj) }.
End MessageDialogOptions.

(** The [body] object of [reportError]; it crosses the process boundary as
    [JSON.stringify(body)]. *)
Module ReportBody.
Record obj := mk {
  error_name : Val;
  message : Val;
  stack : Val;
  platform : Val;
  version : Val;
  language : Val;
  instance_id : Val;
  open_count : Val;
  country_code : Val;
  more : string }.
End ReportBody.

Inductive IPC_ACTIONS : Type := SEND_ERROR | SHOW_ERROR.

(** ** The world *)

(** What the module does to its collaborators, in the order it does it. *)
Inductive Event : Type :=
| ConsoleError (error : Error.obj)
| ConsoleLog (tag : string) (body : ReportBody.obj)
| IpcInvoke (action : IPC_ACTIONS) (body : ReportBody.obj)
| ShowToast (props : ToastOptions.obj)
| ShowMessageDialog (options : MessageDialogOptions.obj).

(** [fyo.store], and the one field of [fyo.singles.SystemSettings] in use. *)
Module Store.
Record obj := mk {
  platform : Val;
  appVersion : Val;
  language : Val;
  instanceId : Val;
  openCount : Val;
  isDevelopment : bool;
  countryCode : Val }.
End Store.

Record World := mkWorld {
  heap : gmap loc Obj;
  errorLog : list ErrorLog.obj;
  store : Store.obj;
  trace : list Event;
  unhandledRejections : list Error.obj }.

Definition with_heap (h : gmap loc Obj) (w : World) : World :=
  mkWorld h (errorLog w) (store w) (trace w) (unhandledRejections w).

Definition with_errorLog (l : list ErrorLog.obj) (w : World) : World :=
  mkWorld (heap w) l (store w) (trace w) (unhandledRejections w).

Definition with_trace (tr : list Event) (w : World) : World :=
  mkWorld (heap w) (errorLog w) (store w) tr (unhandledRejections w).

Definition with_unhandledRejections (l : list Error.obj) (w : World) : World :=
  mkWorld (heap w) (errorLog w) (store w) (trace w) l.

(** ** A monad for one call chain

    A call either returns or throws; an [async] function that is awaited is
    the same thing, its rejection being the exception at the [await]. *)
Inductive Outcome (A : Type) : Type :=
| Returned (a : A)
| Thrown (error : Error.obj).
Arguments Returned {A} a.
Arguments Thrown {A} error.

Definition M (A : Type) : Type := World -> Outcome A * World.

Definition ret {A} (a : A) : M A := fun w => (Returned a, w).

Definition throw {A} (error : Error.obj) : M A := fun w => (Thrown error, w).

Definition bind {A B} (m : M A) (k : A -> M B) : M B :=
  fun w =>
    match m w with
    | (Returned a, w') => k a w'
    | (Thrown error, w') => (Thrown error, w')
    end.

Notation "'let!' x ':=' m 'in' k" := (bind m (fun x => k))
  (at level 10, x name, m at level 100, k at level 200).
Notation "m >>> k" := (bind m (fun _ => k))
  (at level 90, right associativity).

(** [try { m } catch (error) { handler }] *)
Definition try_catch {A} (m : M A) (handler : Error.obj -> M A) : M A :=
  fun w =>
    match m w with
    | (Returned a, w') => (Returned a, w')
    | (Thrown error, w') => handler error w'
    end.

Definition gets {A} (f : World -> A) : M A := fun w => (Returned (f w), w).

Definition modify (f : World -> World) : M unit := fun w => (Returned tt, f w).

Definition emit (ev : Event) : M unit :=
  modify (fun w => with_trace (trace w ++ [ev]) w).

Definition when (b : bool) (m : M unit) : M unit := if b then m else ret tt.

(** A promise nobody awaits. The event loop runs its continuation to the end
    without the caller; a rejection has no handler and is reported by the
    runtime as unhandled. The call site itself goes on normally. Nothing else
    runs in the world of one call chain, so what the continuation does is
    accounted for at the call. *)
Definition detach (m : M unit) : M unit :=
  fun w =>
    match m w with
    | (Returned _, w') => (Returned tt, w')
    | (Thrown error, w') =>
        (Returned tt, with_unhandledRejections (unhandledRejections w' ++ [error]) w')
    end.

(** [promise.then(onFulfilled)]: a rejection of [promise] skips the callback. *)
Definition then_ {A B} (promise : M A) (onFulfilled : A -> M B) : M B :=
  bind promise onFulfilled.

(** A new object literal: a fresh location of the store. *)
Definition alloc (o : Obj) : M loc :=
  fun w =>
    let l := fresh (dom (heap w)) in
    (Returned l, with_heap (<[l := o]> (heap w)) w).

(** [obj.key = v] through the reference [l]. A reference of a running
    program always has its object; for a location without one nothing is
    written. *)
Definition set_prop (l : loc) (key : string) (v : Val) : M unit :=
  modify (fun w => with_heap (alter (fun o : Obj => <[key := v]> o) l (heap w)) w).

(** ** Collaborators

    Imported and not part of the module: the translation function [t], the
    message formatter, the serialiser of [more], lodash's [truncate], and the
    three asynchronous calls, of which the environment says whether they
    reject ([Some reason]) or resolve ([None]). *)
Record Env := mkEnv {
  t : string -> string;
  getErrorMessage : Error.obj -> Val -> string;
  stringifyCircular : gmap loc Obj -> Obj -> string;
  truncate : string -> nat -> string;
  ipcInvoke_rejects : IPC_ACTIONS -> ReportBody.obj -> option Error.obj;
  showToast_rejects : ToastOptions.obj -> option Error.obj;
  showMessageDialog_rejects : MessageDialogOptions.obj -> option Error.obj }.

Definition settle (r : option Error.obj) : M unit :=
  match r with
  | None => ret tt
  | Some reason => throw reason
  end.

(** [await ipcRenderer.invoke(action, JSON.stringify(body))] *)
Definition ipcInvoke (env : Env) (action : IPC_ACTIONS) (body : ReportBody.obj) : M unit :=
  emit (IpcInvoke action body) >>> settle (ipcInvoke_rejects env action body).

(** [await showToast(props)] *)
Definition showToast (env : Env) (props : ToastOptions.obj) : M unit :=
  emit (ShowToast props) >>> settle (showToast_rejects env props).

(** [await showMessageDialog(options)] *)
Definition showMessageDialog (env : Env) (options : MessageDialogOptions.obj) : M unit :=
  emit (ShowMessageDialog options) >>> settle (showMessageDialog_rejects env options).

(** ** The module *)

(** Lines 15-18. *)
Definition shouldNotStore (error : Error.obj) : bool :=
  let shouldLog := coalesce (Error.shouldStore error) (VBool true) in
  negb (truthy shouldLog).

(** Lines 25-36: the [body] literal of [reportError], read off the entry and
    the store. *)
Definition reportBody (env : Env) (errorLogObj : ErrorLog.obj) (w : World) : ReportBody.obj :=
  let more :=
    match ErrorLog.more errorLogObj with
    | Some l => default ∅ (heap w !! l)
    | None => ∅
    end in
  {| ReportBody.error_name := ErrorLog.name errorLogObj;
     ReportBody.message := ErrorLog.message errorLogObj;
     ReportBody.stack := ErrorLog.stack errorLogObj;
     ReportBody.platform := Store.platform (store w);
     ReportBody.version := Store.appVersion (store w);
     ReportBody.language := Store.language (store w);
     ReportBody.instance_id := Store.instanceId (store w);
     ReportBody.open_count := Store.openCount (store w);
     ReportBody.country_code := Store.countryCode (store w);
     ReportBody.more := stringifyCircular env (heap w) more |}.

(** Lines 20-43. *)
Definition reportError (env : Env) (errorLogObj : ErrorLog.obj) : M unit :=
  if negb (truthy (ErrorLog.stack errorLogObj)) then ret tt
  else
    let! body := gets (reportBody env errorLogObj) in
    let! isDevelopment := gets (fun w => Store.isDevelopment (store w)) in
    when isDevelopment (emit (ConsoleLog "reportError" body)) >>>
    ipcInvoke env SEND_ERROR body.

(** Lines 45-54. *)
Definition getToastProps (env : Env) (errorLogObj : ErrorLog.obj) : ToastOptions.obj :=
  {| ToastOptions.message := coalesce (ErrorLog.name errorLogObj) (VStr (t env "Error"));
     ToastOptions.type := "error";
     ToastOptions.actionText := t env "Report Error";
     ToastOptions.action := ReportIssue errorLogObj |}.

(** Lines 56-70. [more] is the reference the caller passes. *)
Definition getErrorLogObject (error : Error.obj) (more : loc) : M ErrorLog.obj :=
  when (truthy (Error.cause error)) (set_prop more "cause" (Error.cause error)) >>>
  let errorLogObj :=
    {| ErrorLog.name := Error.name error;
       ErrorLog.stack := Error.stack error;
       ErrorLog.message := Error.message error;
       ErrorLog.more := Some more |} in
  modify (fun w => with_errorLog (errorLog w ++ [errorLogObj]) w) >>>
  ret errorLogObj.

(** Lines 72-90. [more] is optional; [more ?? {}] makes a new object. *)
Definition handleError (env : Env) (logToConsole : bool) (error : Error.obj)
    (more : option loc) : M unit :=
  when logToConsole (emit (ConsoleError error)) >>>
  if shouldNotStore error then ret tt
  else
    let! more' := match more with Some l => ret l | None => alloc ∅ end in
    let! errorLogObj := getErrorLogObject error more' in
    reportError env errorLogObj >>>
    let toastProps := getToastProps env errorLogObj in
    showToast env toastProps.

(** Lines 207-254. *)
Definition getErrorLabel (env : Env) (error : Error.obj) : string :=
  let name := Error.name error in
  if negb (truthy name) then t env "Error"
  else if strict_eq_str name "BaseError" then t env "Error"
  else if strict_eq_str name "ValidationError" then t env "Validation Error"
  else if strict_eq_str name "NotFoundError" then t env "Not Found"
  else if strict_eq_str name "ForbiddenError" then t env "Forbidden Error"
  else if strict_eq_str name "DuplicateEntryError" then t env "Duplicate Entry"
  else if strict_eq_str name "LinkValidationError" then t env "Link Validation Error"
  else if strict_eq_str name "MandatoryError" then t env "Mandatory Error"
  else if strict_eq_str name "DatabaseError" then t env "Database Error"
  else if strict_eq_str name "CannotCommitError" then t env "Cannot Commit Error"
  else if strict_eq_str name "NotImplemented" then t env "Error"
  else t env "Error".

(** Lines 92-129. The declared type of [reportError] and [dontThrow] is the
    literal [false]; the body tests their truthiness, and that is what is
    modelled. *)
Definition handleErrorWithDialog (env : Env) (error : Error.obj) (doc : Val)
    (reportError dontThrow : Val) : M unit :=
  let errorMessage := getErrorMessage env error doc in
  let! more := alloc {[ "errorMessage" := VStr errorMessage; "doc" := doc ]} in
  handleError env false error (Some more) >>>
  let label := getErrorLabel env error in
  let options :=
    {| MessageDialogOptions.message := label;
       MessageDialogOptions.detail := errorMessage;
       MessageDialogOptions.buttons := None |} in
  let options :=
    if truthy reportError then
      {| MessageDialogOptions.message := MessageDialogOptions.message options;
         MessageDialogOptions.detail :=
           truncate env (MessageDialogOptions.detail options) 128;
         MessageDialogOptions.buttons :=
           Some [ {| Button.label := t env "Report";
                     Button.action := ReportIssueOfError error errorMessage |};
                  {| Button.label := t env "Cancel";
                     Button.action := NoAction |} ] |}
    else options in
  showMessageDialog env options >>>
  if truthy dontThrow then
    let! isDevelopment := gets (fun w => Store.isDevelopment (store w)) in
    when isDevelopment (emit (ConsoleError error))
  else throw error.

(** A JavaScript function: its [name] and what a call does. *)
Module Function.
Record obj := mk {
  name : string;
  call : list Val -> M Val }.
End Function.

(** [{ functionName: func.name, functionArgs: args }] *)
Definition wrapperContext (func : Function.obj) (args : list Val) : Obj :=
  {[ "functionName" := VStr (Function.name func); "functionArgs" := VArr args ]}.

(** Lines 141-154: the function [getErrorHandled(func)] returns, applied to
    [args]. *)
Definition getErrorHandled (env : Env) (func : Function.obj) (args : list Val) : M Val :=
  try_catch (Function.call func args) (fun error =>
    let! more := alloc (wrapperContext func args) in
    handleError env false error (Some more) >>>
    throw error).

(** Lines 156-169: the function [getErrorHandledSync(func)] returns, applied
    to [args]. After the [catch] block it falls off its end. *)
Definition getErrorHandledSync (env : Env) (func : Function.obj) (args : list Val) : M Val :=
  try_catch (Function.call func args) (fun error =>
    let! more := alloc (wrapperContext func args) in
    detach (then_ (handleError env false error (Some more)) (fun _ => throw error)) >>>
    ret VUndefined).

(** ** Reading the trace *)

(** The payloads that crossed the process boundary, oldest first. *)
Fixpoint sends (tr : list Event) : list (IPC_ACTIONS * ReportBody.obj) :=
  match tr with
  | [] => []
  | IpcInvoke action body :: tr' => (action, body) :: sends tr'
  | _ :: tr' => sends tr'
  end.

Fixpoint toasts (tr : list Event) : list ToastOptions.obj :=
  match tr with
  | [] => []
  | ShowToast props :: tr' => props :: toasts tr'
  | _ :: tr' => toasts tr'
  end.

Fixpoint dialogs (tr : list Event) : list MessageDialogOptions.obj :=
  match tr with
  | [] => []
  | ShowMessageDialog options :: tr' => options :: dialogs tr'
  | _ :: tr' => dialogs tr'
  end.

(** ** A concrete environment *)

(** [truncate] is lodash's and not part of the sources; this is its
    documented behaviour with the default omission, on a text in which every
    character is a single byte: a string longer than [len] keeps its first
    [len - 3] characters, followed by three dots. (On other text lodash
    counts symbols, not bytes.) *)
Definition lodash_truncate (s : string) (len : nat) : string :=
  let omission := "..." in
  if (String.length s <=? len)%nat then s
  else
    let e := len - String.length omission in
    if (e <? 1)%nat then omission else String.substring 0 e s +:+ omission.

Definition message_text (error : Error.obj) : string :=
  match Error.message error with
  | VStr s => s
  | _ => ""
  end.

(** No translation loaded, and every collaborator resolves. *)
Definition plain_env : Env :=
  {| t := fun s => s;
     getErrorMessage := fun error _ => message_text error;
     stringifyCircular := fun _ _ => "{}";
     truncate := lodash_truncate;
     ipcInvoke_rejects := fun _ _ => None;
     showToast_rejects := fun _ => None;
     showMessageDialog_rejects := fun _ => None |}.

Definition empty_world : World :=
  {| heap := ∅;
     errorLog := [];
     store :=
       {| Store.platform := VStr "Linux";
          Store.appVersion := VStr "0.0.1";
          Store.language := VStr "English";
          Store.instanceId := VStr "instance";
          Store.openCount := VNum 1;
          Store.isDevelopment := false;
          Store.countryCode := VUndefined |};
     trace := [];
     unhandledRejections := [] |}.

(** [{name: 'ValidationError', message: 'Bad input', stack: 'trace...'}] *)
Definition validation_error : Error.obj :=
  {| Error.name := VStr "ValidationError";
     Error.stack := VStr "trace...";
     Error.message := VStr "Bad input";
     Error.cause := VUndefined;
     Error.shouldStore := VUndefined |}.

(** The ten names the classifier tests for, in the order of its tests. *)
Definition recognized : list string :=
  [ "BaseError"; "ValidationError"; "NotFoundError"; "ForbiddenError";
    "DuplicateEntryError"; "LinkValidationError"; "MandatoryError";
    "DatabaseError"; "CannotCommitError"; "NotImplemented" ].

(** The nine literals the classifier hands to the translation. *)
Definition labels : list string :=
  [ "Error"; "Validation Error"; "Not Found"; "Forbidden Error";
    "Duplicate Entry"; "Link Validation Error"; "Mandatory Error";
    "Database Error"; "Cannot Commit Error" ].

(** The eight of them with a label of their own. *)
Definition specific : list string :=
  [ "ValidationError"; "NotFoundError"; "ForbiddenError";
    "DuplicateEntryError"; "LinkValidationError"; "MandatoryError";
    "DatabaseError"; "CannotCommitError" ].

Definition named (s : string) : Error.obj :=
  {| Error.name := VStr s;
     Error.stack := VUndefined;
     Error.message := VStr "";
     Error.cause := VUndefined;
     Error.shouldStore := VUndefined |}.

(** ** Definitions used by the statements *)

(** The entry [getErrorLogObject] builds for [error] and the context at [l]. *)
Definition recorded (error : Error.obj) (l : loc) : ErrorLog.obj :=
  {| ErrorLog.name := Error.name error;
     ErrorLog.stack := Error.stack error;
     ErrorLog.message := Error.message error;
     ErrorLog.more := Some l |}.

(** The store after [if (cause) { more.cause = cause }]. *)
Definition merge_cause (error : Error.obj) (l : loc) (h : gmap loc Obj) : gmap loc Obj :=
  if truthy (Error.cause error)
  then alter (fun o : Obj => <["cause" := Error.cause error]> o) l h
  else h.

Definition outcome_of (r : option Error.obj) : Outcome unit :=
  match r with
  | None => Returned tt
  | Some reason => Thrown reason
  end.

(** The context object [more ?? {}] of [handleError]. *)
Definition context_loc (more : option loc) (w : World) : loc :=
  match more with
  | Some l => l
  | None => fresh (dom (heap w))
  end.

Definition context_heap (more : option loc) (w : World) : gmap loc Obj :=
  match more with
  | Some _ => heap w
  | None => <[fresh (dom (heap w)) := ∅]> (heap w)
  end.

Definition console (logToConsole : bool) (error : Error.obj) : list Event :=
  if logToConsole then [ConsoleError error] else [].

(** The world once [handleError] has logged to the console and recorded. *)
Definition recorded_world (logToConsole : bool) (error : Error.obj)
    (more : option loc) (w : World) : World :=
  let l := context_loc more w in
  mkWorld (merge_cause error l (context_heap more w))
    (errorLog w ++ [recorded error l]) (store w)
    (trace w ++ console logToConsole error) (unhandledRejections w).

(** [error] with its [shouldStore] property set to [v]. *)
Definition set_shouldStore (v : Val) (error : Error.obj) : Error.obj :=
  Error.mk (Error.name error) (Error.stack error) (Error.message error)
    (Error.cause error) v.

(** What [reportError] adds to the trace, and how its promise settles. *)
Definition report_events (env : Env) (errorLogObj : ErrorLog.obj) (w : World) : list Event :=
  let body := reportBody env errorLogObj w in
  if truthy (ErrorLog.stack errorLogObj)
  then (if Store.isDevelopment (store w) then [ConsoleLog "reportError" body] else [])
       ++ [IpcInvoke SEND_ERROR body]
  else [].

Definition report_outcome (env : Env) (errorLogObj : ErrorLog.obj) (w : World) : Outcome unit :=
  if truthy (ErrorLog.stack errorLogObj)
  then outcome_of (ipcInvoke_rejects env SEND_ERROR (reportBody env errorLogObj w))
  else Returned tt.

(** Unfolds the monad of a call chain applied to a world. *)
Ltac run :=
  repeat progress
    (cbv beta iota zeta delta
       [bind ret throw gets modify emit when settle try_catch detach then_
        alloc set_prop ipcInvoke showToast showMessageDialog
        with_trace with_heap with_errorLog with_unhandledRejections];
     simpl).

Definition silent_error : Error.obj := set_shouldStore (VBool false) validation_error.

Definition stackless_entry : ErrorLog.obj :=
  {| ErrorLog.name := VStr "ValidationError";
     ErrorLog.stack := VStr "";
     ErrorLog.message := VStr "Bad input";
     ErrorLog.more := None |}.

(** The object the entry's [more] refers to, property by property. *)
Definition more_property (errorLogObj : ErrorLog.obj) (w : World) (key : string) : option Val :=
  l ← ErrorLog.more errorLogObj; o ← heap w !! l; o !! key.

Definition cause_context : Obj := {[ "cause" := VNum 1 ]}.

Definition cause_world : World := with_heap {[ 0 := cause_context ]} empty_world.

Definition caused_error : Error.obj :=
  {| Error.name := VStr "DatabaseError";
     Error.stack := VStr "trace...";
     Error.message := VStr "Bad input";
     Error.cause := VStr "disk full";
     Error.shouldStore := VUndefined |}.

Definition zero_caused_error : Error.obj :=
  {| Error.name := VStr "DatabaseError";
     Error.stack := VStr "trace...";
     Error.message := VStr "Bad input";
     Error.cause := VNum 0;
     Error.shouldStore := VUndefined |}.

Definition plain_context : Obj := {[ "a" := VNum 1 ]}.

Definition plain_world : World := with_heap {[ 0 := plain_context ]} empty_world.

(** The dialog request [handleErrorWithDialog] builds. *)
Definition dialogOptions (env : Env) (error : Error.obj) (doc reportError : Val)
    : MessageDialogOptions.obj :=
  let errorMessage := getErrorMessage env error doc in
  if truthy reportError then
    {| MessageDialogOptions.message := getErrorLabel env error;
       MessageDialogOptions.detail := truncate env errorMessage 128;
       MessageDialogOptions.buttons :=
         Some [ {| Button.label := t env "Report";
                   Button.action := ReportIssueOfError error errorMessage |};
                {| Button.label := t env "Cancel";
                   Button.action := NoAction |} ] |}
  else
    {| MessageDialogOptions.message := getErrorLabel env error;
       MessageDialogOptions.detail := errorMessage;
       MessageDialogOptions.buttons := None |}.

(** The context object [{ errorMessage, doc }] and the world holding it. *)
Definition dialogContext (env : Env) (error : Error.obj) (doc : Val) : Obj :=
  {[ "errorMessage" := VStr (getErrorMessage env error doc); "doc" := doc ]}.

Definition allocated (o : Obj) (w : World) : World :=
  with_heap (<[fresh (dom (heap w)) := o]> (heap w)) w.

(** The bytes of a string, one by one: the symbols of a text in which
    every character is a single byte. *)
Definition characters (s : string) : list string :=
  map (fun c => String c EmptyString) (list_ascii_of_string s).

(** A display message of 500 characters. *)
Definition long_message : string :=
  Eval vm_compute in
    String.concat "" (repeat "The quantity must be a number. A number." 12) +:+ "01234567890123456789".

Definition long_error : Error.obj :=
  {| Error.name := VStr "ValidationError";
     Error.stack := VStr "trace...";
     Error.message := VStr long_message;
     Error.cause := VUndefined;
     Error.shouldStore := VUndefined |}.

(** An operation that throws, and one that returns its first argument. *)
Definition failing : Function.obj :=
  {| Function.name := "save";
     Function.call := fun _ => throw validation_error |}.

Definition first_argument : Function.obj :=
  {| Function.name := "first";
     Function.call := fun args => ret (hd VUndefined args) |}.

(** ** The composer of issue reports, and the callbacks *)

(** What a template literal, or [join], makes of a value. A number of the
    model prints as its decimal digits, as a double does for an integer
    below 10^21; a reference is to a plain object. *)
Fixpoint toString (v : Val) : string :=
  match v with
  | VUndefined => "undefined"
  | VNull => "null"
  | VBool true => "true"
  | VBool false => "false"
  | VNum n => NilZero.string_of_int (Z.to_int n)
  | VStr s => s
  | VArr vs => String.concat "," (map (fun x => if nullish x then "" else toString x) vs)
  | VRef _ => "[object Object]"
  end.

(** The characters [encodeURI] leaves alone: letters, digits, the reserved
    characters and the unreserved marks. *)
Definition uri_kept (c : ascii) : bool :=
  let n := nat_of_ascii c in
  ((65 <=? n)%nat && (n <=? 90)%nat)
  || ((97 <=? n)%nat && (n <=? 122)%nat)
  || ((48 <=? n)%nat && (n <=? 57)%nat)
  || existsb (Ascii.eqb c) (list_ascii_of_string ";/?:@&=+$,#-_.!~*'()").

Definition hex_digit (n : nat) : ascii :=
  match String.get n "0123456789ABCDEF" with
  | Some c => c
  | None => "0"%char
  end.

Definition percent_encode (c : ascii) : string :=
  let n := nat_of_ascii c in
  String "%" (String (hex_digit (n / 16)) (String (hex_digit (n mod 16)) "")).

(** The states of a reader of UTF-8: at a character boundary, or inside a
    character with one, two or three continuation bytes to come, the first
    of which may be restricted by the lead byte. *)
Inductive Utf8State : Type :=
| Boundary
| Tail1
| Tail2
| Tail3
| AfterE0
| AfterED
| AfterF0
| AfterF4.

Definition between (lo hi b : nat) : bool := (lo <=? b)%nat && (b <=? hi)%nat.

Definition utf8_step (st : Utf8State) (b : nat) : option Utf8State :=
  match st with
  | Boundary =>
      if (b <? 128)%nat then Some Boundary
      else if between 194 223 b then Some Tail1
      else if (b =? 224)%nat then Some AfterE0
      else if between 225 236 b || between 238 239 b then Some Tail2
      else if (b =? 237)%nat then Some AfterED
      else if (b =? 240)%nat then Some AfterF0
      else if between 241 243 b then Some Tail3
      else if (b =? 244)%nat then Some AfterF4
      else None
  | Tail1 => if between 128 191 b then Some Boundary else None
  | Tail2 => if between 128 191 b then Some Tail1 else None
  | Tail3 => if between 128 191 b then Some Tail2 else None
  | AfterE0 => if between 160 191 b then Some Tail1 else None
  | AfterED => if between 128 159 b then Some Tail1 else None
  | AfterF0 => if between 144 191 b then Some Tail2 else None
  | AfterF4 => if between 128 143 b then Some Tail2 else None
  end.

Fixpoint utf8_run (st : Utf8State) (s : string) : option Utf8State :=
  match s with
  | EmptyString => Some st
  | String c s' =>
      match utf8_step st (nat_of_ascii c) with
      | Some st' => utf8_run st' s'
      | None => None
      end
  end.

(** A string of the model holds the UTF-8 bytes of a text. A JavaScript
    string with an unpaired surrogate has no UTF-8 encoding; what stands for
    it here is a string that is not well-formed UTF-8 (the three bytes from
    [ED A0 80] to [ED BF BF] that would encode the surrogate are not). *)
Definition wellFormed (s : string) : bool :=
  match utf8_run Boundary s with
  | Some Boundary => true
  | _ => false
  end.

(** What [encodeURI] makes of a well-formed text: a byte that is not one of
    the kept characters becomes a percent sign and two capital hexadecimal
    digits. *)
Fixpoint escape (s : string) : string :=
  match s with
  | EmptyString => EmptyString
  | String c s' =>
      (if uri_kept c then String c EmptyString else percent_encode c) +:+ escape s'
  end.

(** [encodeURI]: it throws a [URIError] ([None]) for a text with an
    unpaired surrogate. *)
Definition encodeURI (s : string) : option string :=
  if wellFormed s then Some (escape s) else None.

(** The [URIError] of [encodeURI]; its stack is the engine's, of which the
    model keeps the first line. *)
Definition uriError : Error.obj :=
  {| Error.name := VStr "URIError";
     Error.stack := VStr "URIError: URI malformed";
     Error.message := VStr "URI malformed";
     Error.cause := VUndefined;
     Error.shouldStore := VUndefined |}.

(** The characters a result of [encodeURI] is made of. *)
Definition url_char (c : ascii) : bool := uri_kept c || Ascii.eqb c "%".

Definition newline : string := String (ascii_of_nat 10) EmptyString.

Inductive IPC_MESSAGES : Type := OPEN_EXTERNAL.

(** The world, with what the composer reads besides [fyo.store]
    ([router.currentRoute.value.fullPath], [fyo.config.get(ConfigKeys.Language)])
    and the messages handed to [ipcRenderer.send]. *)
Record Shell := mkShell {
  world : World;
  fullPath : Val;
  configLanguage : Val;
  outbox : list (IPC_MESSAGES * string) }.

Definition with_world (w : World) (sh : Shell) : Shell :=
  mkShell w (fullPath sh) (configLanguage sh) (outbox sh).

Definition with_outbox (l : list (IPC_MESSAGES * string)) (sh : Shell) : Shell :=
  mkShell (world sh) (fullPath sh) (configLanguage sh) l.

Definition baseUrl : string := "https://github.com/frappe/books/issues/new?labels=bug".

(** Lines 174-196: the array [body] of [getIssueUrlQuery]. *)
Definition issueBody (sh : Shell) (errorLogObj : option ErrorLog.obj) : list string :=
  let body := ["<h2>Description</h2>"; "Add some description..."; ""] in
  let body :=
    match errorLogObj with
    | Some e =>
        body ++
        [ "<h2>Error Info</h2>";
          "";
          "**Error**: _" +:+ toString (ErrorLog.name e) +:+ ": "
            +:+ toString (ErrorLog.message e) +:+ "_";
          "" ]
    | None => body
    end in
  let body :=
    match errorLogObj with
    | Some e =>
        if truthy (ErrorLog.stack e)
        then body ++ ["**Stack**:"; "```"; toString (ErrorLog.stack e); "```"; ""]
        else body
    | None => body
    end in
  let body :=
    body ++ ["**Version**: `" +:+ toString (Store.appVersion (store (world sh))) +:+ "`"] in
  let body :=
    body ++ ["**Platform**: `" +:+ toString (Store.platform (store (world sh))) +:+ "`"] in
  let body := body ++ ["**Path**: `" +:+ toString (fullPath sh) +:+ "`"] in
  let body := body ++ ["**Language**: `" +:+ toString (configLanguage sh) +:+ "`"] in
  if truthy (Store.countryCode (store (world sh)))
  then body ++ ["**Country**: `" +:+ toString (Store.countryCode (store (world sh))) +:+ "`"]
  else body.

(** Line 198: the text [url], before it is encoded. *)
Definition issueUrl (sh : Shell) (errorLogObj : option ErrorLog.obj) : string :=
  let body := issueBody sh errorLogObj in
  String.concat "&" [baseUrl; "body=" +:+ String.concat newline body].

(** Lines 171-200. *)
Definition getIssueUrlQuery (sh : Shell) (errorLogObj : option ErrorLog.obj)
    : Outcome string :=
  let url := issueUrl sh errorLogObj in
  match encodeURI url with
  | Some encoded => Returned encoded
  | None => Thrown uriError
  end.

(** Calls that also read the route or send a message. *)
Definition SM (A : Type) : Type := Shell -> Outcome A * Shell.

Definition lift {A} (m : M A) : SM A :=
  fun sh =>
    match m (world sh) with
    | (o, w') => (o, with_world w' sh)
    end.

(** Lines 202-205. *)
Definition reportIssue (errorLogObj : option ErrorLog.obj) : SM unit :=
  fun sh =>
    match getIssueUrlQuery sh errorLogObj with
    | Returned urlQuery =>
        (Returned tt, with_outbox (outbox sh ++ [(OPEN_EXTERNAL, urlQuery)]) sh)
    | Thrown error => (Thrown error, sh)
    end.

(** What the user interface runs when the action of a toast or a button of
    a dialog is chosen (lines 50 and 112-116). *)
Definition runCallback (cb : Callback) : SM unit :=
  match cb with
  | ReportIssue errorLogObj => reportIssue (Some errorLogObj)
  | ReportIssueOfError error errorMessage =>
      fun sh =>
        match lift (let! more := alloc {[ "errorMessage" := VStr errorMessage ]} in
                    getErrorLogObject error more) sh with
        | (Returned errorLogObj, sh') => reportIssue (Some errorLogObj) sh'
        | (Thrown reason, sh') => (Thrown reason, sh')
        end
  | NoAction => fun sh => (Returned tt, sh)
  end.

(** The functions [getErrorHandled(func)] and [getErrorHandledSync(func)]
    return, as functions of their own: they are named [errorHandled] and
    [errorHandledSync]. *)
Definition errorHandled (env : Env) (func : Function.obj) : Function.obj :=
  {| Function.name := "errorHandled";
     Function.call := getErrorHandled env func |}.

Definition errorHandledSync (env : Env) (func : Function.obj) : Function.obj :=
  {| Function.name := "errorHandledSync";
     Function.call := getErrorHandledSync env func |}.

(** An environment whose transport rejects every report. *)
Definition offline_reason : Error.obj :=
  {| Error.name := VStr "Error";
     Error.stack := VUndefined;
     Error.message := VStr "No handler registered";
     Error.cause := VUndefined;
     Error.shouldStore := VUndefined |}.

Definition offline_env : Env :=
  {| t := fun s => s;
     getErrorMessage := fun error _ => message_text error;
     stringifyCircular := fun _ _ => "{}";
     truncate := lodash_truncate;
     ipcInvoke_rejects := fun _ _ => Some offline_reason;
     showToast_rejects := fun _ => None;
     showMessageDialog_rejects := fun _ => None |}.

Definition empty_shell : Shell :=
  {| world := empty_world;
     fullPath := VStr "/list/SalesInvoice";
     configLanguage := VStr "English";
     outbox := [] |}.

(** Every character of [s] passes [p]. *)
Fixpoint all_chars (p : ascii -> bool) (s : string) : bool :=
  match s with
  | EmptyString => true
  | String c s' => p c && all_chars p s'
  end.

(** The text of an issue URL, before encoding, up to the message of the
    entry: the base URL, the description and the head of the error line. *)
Definition errorLinePrefix (errorLogObj : ErrorLog.obj) : string :=
  baseUrl +:+ "&body=" +:+ "<h2>Description</h2>" +:+ newline
  +:+ "Add some description..." +:+ newline +:+ newline
  +:+ "<h2>Error Info</h2>" +:+ newline +:+ newline
  +:+ "**Error**: _" +:+ toString (ErrorLog.name errorLogObj) +:+ ": ".

(** The values [getIssueUrlQuery] may write into the text. *)
Definition issueFields (sh : Shell) (errorLogObj : option ErrorLog.obj) : list Val :=
  match errorLogObj with
  | Some e => [ErrorLog.name e; ErrorLog.message e; ErrorLog.stack e]
  | None => []
  end ++
  [ Store.appVersion (store (world sh)); Store.platform (store (world sh));
    fullPath sh; configLanguage sh; Store.countryCode (store (world sh)) ].

(** What stands for the unpaired surrogate U+D800, and an error whose
    message ends with it. *)
Definition lone_surrogate : string :=
  String (ascii_of_nat 237) (String (ascii_of_nat 160) (String (ascii_of_nat 128) EmptyString)).

Definition surrogate_error : Error.obj :=
  {| Error.name := VStr "ValidationError";
     Error.stack := VStr "trace...";
     Error.message := VStr ("Bad input " +:+ lone_surrogate);
     Error.cause := VUndefined;
     Error.shouldStore := VUndefined |}.

(** An entry whose message has the characters that split a query. *)
Definition ampersand_entry : ErrorLog.obj :=
  {| ErrorLog.name := VStr "ValidationError";
     ErrorLog.stack := VUndefined;
     ErrorLog.message := VStr "a&b#c";
     ErrorLog.more := None |}.

(** * Properties *)

(** ** The label classifier *)

Lemma getErrorLabel_cases env error :
  In (getErrorLabel env error)
     (map (t env)
        [ "Error"; "Validation Error"; "Not Found"; "Forbidden Error";
          "Duplicate Entry"; "Link Validation Error"; "Mandatory Error";
          "Database Error"; "Cannot Commit Error" ]).
Proof.
  unfold getErrorLabel.
  repeat match goal with
         | |- context [if ?b then _ else _] => destruct b
         end; simpl; tauto.
Qed.

Lemma getErrorLabel_unrecognized env error s :
  Error.name error = VStr s -> ~ In s recognized ->
  getErrorLabel env error = t env "Error".
Proof.
  intros Hname Hnot. unfold getErrorLabel. rewrite Hname. simpl.
  repeat match goal with
         | |- context [String.eqb s ?lit] =>
             destruct (String.eqb_spec s lit) as [->|_];
             [ try (exfalso; apply Hnot; simpl; tauto) | ]
         end; simpl; try reflexivity.
  all: destruct (negb _); reflexivity.
Qed.

Lemma getErrorLabel_name env error s :
  Error.name error = VStr s -> getErrorLabel env error = getErrorLabel env (named s).
Proof. intros Hname. unfold getErrorLabel. rewrite Hname. reflexivity. Qed.

(** ** Running the pipeline *)

Lemma sends_app tr1 tr2 : sends (tr1 ++ tr2) = sends tr1 ++ sends tr2.
Proof.
  induction tr1 as [|ev tr1 IH]; simpl; [reflexivity|].
  destruct ev; simpl; rewrite IH; reflexivity.
Qed.

Lemma toasts_app tr1 tr2 : toasts (tr1 ++ tr2) = toasts tr1 ++ toasts tr2.
Proof.
  induction tr1 as [|ev tr1 IH]; simpl; [reflexivity|].
  destruct ev; simpl; rewrite IH; reflexivity.
Qed.

Lemma dialogs_app tr1 tr2 : dialogs (tr1 ++ tr2) = dialogs tr1 ++ dialogs tr2.
Proof.
  induction tr1 as [|ev tr1 IH]; simpl; [reflexivity|].
  destruct ev; simpl; rewrite IH; reflexivity.
Qed.

Lemma bind_ret {A B} (a : A) (k : A -> M B) w : bind (ret a) k w = k a w.
Proof. reflexivity. Qed.

Lemma bind_emit {B} ev (k : unit -> M B) w :
  bind (emit ev) k w = k tt (with_trace (trace w ++ [ev]) w).
Proof. reflexivity. Qed.

Section Pipeline.
Variable env : Env.

Lemma getErrorLogObject_run error l w :
  getErrorLogObject error l w =
  (Returned (recorded error l),
   mkWorld (merge_cause error l (heap w)) (errorLog w ++ [recorded error l])
     (store w) (trace w) (unhandledRejections w)).
Proof.
  unfold getErrorLogObject, merge_cause, recorded.
  destruct (truthy (Error.cause error)); destruct w; reflexivity.
Qed.

Lemma reportError_skip errorLogObj w :
  truthy (ErrorLog.stack errorLogObj) = false ->
  reportError env errorLogObj w = (Returned tt, w).
Proof. intros Hstack. unfold reportError. rewrite Hstack. reflexivity. Qed.

Lemma reportError_send errorLogObj w :
  truthy (ErrorLog.stack errorLogObj) = true ->
  let body := reportBody env errorLogObj w in
  reportError env errorLogObj w =
  (outcome_of (ipcInvoke_rejects env SEND_ERROR body),
   with_trace
     (trace w
      ++ (if Store.isDevelopment (store w) then [ConsoleLog "reportError" body] else [])
      ++ [IpcInvoke SEND_ERROR body]) w).
Proof.
  intros Hstack body. unfold reportError. rewrite Hstack. simpl.
  run. fold body.
  destruct w as [h log st tr ur]; simpl.
  destruct (Store.isDevelopment st); run;
    destruct (ipcInvoke_rejects env SEND_ERROR body); run;
    rewrite <- ?app_assoc; reflexivity.
Qed.

Lemma handleError_skips logToConsole error more w :
  shouldNotStore error = true ->
  handleError env logToConsole error more w =
  (Returned tt, with_trace (trace w ++ console logToConsole error) w).
Proof.
  intros Hskip. unfold handleError. rewrite Hskip.
  destruct logToConsole, w; run; rewrite ?app_nil_r; reflexivity.
Qed.

Lemma handleError_stores logToConsole error more w :
  shouldNotStore error = false ->
  let errorLogObj := recorded error (context_loc more w) in
  handleError env logToConsole error more w =
  (reportError env errorLogObj >>> showToast env (getToastProps env errorLogObj))
    (recorded_world logToConsole error more w).
Proof.
  intros Hstore errorLogObj. unfold handleError. rewrite Hstore.
  assert (Hrec : forall w0 : World,
    (let! more' := match more with Some l => ret l | None => alloc ∅ end in
     let! errorLogObj := getErrorLogObject error more' in
     reportError env errorLogObj >>>
     showToast env (getToastProps env errorLogObj)) w0 =
    (reportError env (recorded error (context_loc more w0)) >>>
     showToast env (getToastProps env (recorded error (context_loc more w0))))
      (recorded_world false error more w0)).
  { intros w0. unfold bind at 1.
    destruct more as [l|]; simpl.
    - unfold ret. unfold bind at 1. rewrite getErrorLogObject_run.
      unfold recorded_world, console. simpl. rewrite app_nil_r. reflexivity.
    - unfold alloc. unfold bind at 1. rewrite getErrorLogObject_run.
      unfold recorded_world, console. simpl. rewrite app_nil_r. reflexivity. }
  destruct logToConsole; simpl.
  - rewrite bind_emit, Hrec. subst errorLogObj.
    destruct w, more; unfold recorded_world, console; simpl;
      rewrite app_nil_r; reflexivity.
  - rewrite bind_ret, Hrec. reflexivity.
Qed.
Lemma reportError_run errorLogObj w :
  reportError env errorLogObj w =
  (report_outcome env errorLogObj w,
   with_trace (trace w ++ report_events env errorLogObj w) w).
Proof.
  unfold report_outcome, report_events.
  destruct (truthy (ErrorLog.stack errorLogObj)) eqn:Hstack.
  - apply reportError_send, Hstack.
  - rewrite reportError_skip by exact Hstack.
    destruct w; unfold with_trace; simpl; rewrite app_nil_r; reflexivity.
Qed.

Lemma handleError_run logToConsole error more w :
  shouldNotStore error = false ->
  let errorLogObj := recorded error (context_loc more w) in
  let w1 := recorded_world logToConsole error more w in
  let props := getToastProps env errorLogObj in
  handleError env logToConsole error more w =
  match report_outcome env errorLogObj w1 with
  | Returned _ =>
      (outcome_of (showToast_rejects env props),
       with_trace (trace w1 ++ report_events env errorLogObj w1 ++ [ShowToast props]) w1)
  | Thrown reason =>
      (Thrown reason, with_trace (trace w1 ++ report_events env errorLogObj w1) w1)
  end.
Proof.
  intros Hstore errorLogObj w1 props.
  rewrite handleError_stores by exact Hstore. fold errorLogObj w1 props.
  unfold bind. rewrite reportError_run.
  destruct (report_outcome env errorLogObj w1) as [[]|reason]; [|reflexivity].
  unfold showToast. rewrite bind_emit.
  destruct (showToast_rejects env props); simpl;
    unfold with_trace; simpl; rewrite <- app_assoc; reflexivity.
Qed.
End Pipeline.

Lemma sends_console logToConsole error : sends (console logToConsole error) = [].
Proof. destruct logToConsole; reflexivity. Qed.

Lemma toasts_console logToConsole error : toasts (console logToConsole error) = [].
Proof. destruct logToConsole; reflexivity. Qed.

Lemma sends_report_events env errorLogObj w :
  sends (report_events env errorLogObj w) =
  if truthy (ErrorLog.stack errorLogObj)
  then [(SEND_ERROR, reportBody env errorLogObj w)] else [].
Proof.
  unfold report_events.
  destruct (truthy _); [|reflexivity].
  destruct (Store.isDevelopment _); reflexivity.
Qed.

Lemma toasts_report_events env errorLogObj w :
  toasts (report_events env errorLogObj w) = [].
Proof.
  unfold report_events.
  destruct (truthy _); [|reflexivity].
  destruct (Store.isDevelopment _); reflexivity.
Qed.

Lemma shouldNotStore_false error :
  Error.shouldStore error = VBool false -> shouldNotStore error = true.
Proof. intros H. unfold shouldNotStore. rewrite H. reflexivity. Qed.

Lemma shouldNotStore_default error :
  Error.shouldStore error = VUndefined \/ Error.shouldStore error = VBool true ->
  shouldNotStore error = false.
Proof. intros [H|H]; unfold shouldNotStore; rewrite H; reflexivity. Qed.

(** Whatever the outcome, a stored error is in the log once, and the report
    the reporter sent for it, if any, is the only new one. *)
Lemma handleError_stored_world env logToConsole error more w :
  shouldNotStore error = false ->
  let errorLogObj := recorded error (context_loc more w) in
  let w1 := recorded_world logToConsole error more w in
  let w' := snd (handleError env logToConsole error more w) in
  errorLog w' = errorLog w ++ [errorLogObj]
  /\ heap w' = heap w1
  /\ store w' = store w
  /\ unhandledRejections w' = unhandledRejections w
  /\ sends (trace w') =
     sends (trace w) ++
     (if truthy (Error.stack error)
      then [(SEND_ERROR, reportBody env errorLogObj w1)] else []).
Proof.
  intros Hstore errorLogObj w1 w'. subst w'.
  rewrite handleError_run by exact Hstore. fold errorLogObj w1.
  assert (Hsends : sends (trace w1 ++ report_events env errorLogObj w1) =
    sends (trace w) ++
    (if truthy (Error.stack error)
     then [(SEND_ERROR, reportBody env errorLogObj w1)] else [])).
  { rewrite sends_app, sends_report_events. subst w1. simpl.
    rewrite sends_app, sends_console, app_nil_r. reflexivity. }
  assert (Hlog : errorLog w1 = errorLog w ++ [errorLogObj]) by reflexivity.
  assert (Hst : store w1 = store w) by reflexivity.
  assert (Hur : unhandledRejections w1 = unhandledRejections w) by reflexivity.
  clearbody w1.
  destruct (report_outcome env errorLogObj w1) as [[]|reason];
    unfold with_trace; cbn [snd errorLog heap store unhandledRejections trace].
  - repeat split; try assumption.
    rewrite app_assoc, sends_app, Hsends. simpl. apply app_nil_r.
  - repeat split; assumption.
Qed.

(** ** Claims about [handleError] and [reportError] *)

(** C3. For an error whose [shouldStore] is explicitly [false],
    [handleError] returns without handling anything: nothing is appended to
    the error log, the reporter sends nothing, no toast is shown, and the
    store, the objects and the pending rejections are as before; the only
    thing that can happen is the console line the caller asked for with
    [logToConsole], and without it the world is unchanged. When [shouldStore]
    is absent the gate defaults to storing and the same error is recorded. *)
Theorem handleError_shouldStore_false env logToConsole error more w
    (Hfalse : Error.shouldStore error = VBool false) :
  handleError env false error more w = (Returned tt, w)
  /\ (let r := handleError env logToConsole error more w in
      fst r = Returned tt
      /\ errorLog (snd r) = errorLog w
      /\ heap (snd r) = heap w
      /\ store (snd r) = store w
      /\ unhandledRejections (snd r) = unhandledRejections w
      /\ trace (snd r) = trace w ++ console logToConsole error
      /\ sends (trace (snd r)) = sends (trace w)
      /\ toasts (trace (snd r)) = toasts (trace w))
  /\ (let absent := set_shouldStore VUndefined error in
      shouldNotStore absent = false
      /\ errorLog (snd (handleError env logToConsole absent more w)) =
         errorLog w ++ [recorded error (context_loc more w)]).
Proof.
  pose proof (shouldNotStore_false error Hfalse) as Hskip.
  split; [|split].
  - rewrite handleError_skips by exact Hskip.
    destruct w; unfold with_trace; simpl; rewrite app_nil_r; reflexivity.
  - rewrite handleError_skips by exact Hskip. simpl.
    rewrite sends_app, toasts_app, sends_console, toasts_console, !app_nil_r.
    repeat split; reflexivity.
  - simpl. split; [reflexivity|].
    pose proof (handleError_stored_world env logToConsole
                  (set_shouldStore VUndefined error) more w eq_refl) as H.
    simpl in H. destruct H as [Hlog _]. exact Hlog.
Qed.

Lemma handleError_shouldStore_false_witness :
  handleError plain_env false silent_error None empty_world = (Returned tt, empty_world)
  /\ errorLog (snd (handleError plain_env true silent_error None empty_world)) = []
  /\ trace (snd (handleError plain_env true silent_error None empty_world)) =
     [ConsoleError silent_error].
Proof.
  pose proof (handleError_shouldStore_false plain_env true silent_error None
                empty_world eq_refl) as [H0 [[_ [Hlog [_ [_ [_ [Htrace _]]]]]] _]].
  split; [|split].
  - exact H0.
  - exact Hlog.
  - exact Htrace.
Defined.

(** C4. For a log entry whose [stack] is empty or absent, the remote
    reporter does nothing: it returns at once and the world, with the list of
    payloads sent across the process boundary, is unchanged; so [handleError]
    sends nothing for an error with that stack, whatever its [shouldStore].
    In general the reporter sends one payload exactly when the stack is
    non-empty, and none otherwise. *)
Theorem reportError_needs_stack env errorLogObj w
    (Hstack : truthy (ErrorLog.stack errorLogObj) = false) :
  reportError env errorLogObj w = (Returned tt, w)
  /\ (forall logToConsole name message cause shouldStore more,
        let error :=
          Error.mk name (ErrorLog.stack errorLogObj) message cause shouldStore in
        sends (trace (snd (handleError env logToConsole error more w))) =
        sends (trace w))
  /\ (forall entry w0,
        sends (trace (snd (reportError env entry w0))) =
        sends (trace w0) ++
        (if truthy (ErrorLog.stack entry)
         then [(SEND_ERROR, reportBody env entry w0)] else [])).
Proof.
  split; [|split].
  - apply reportError_skip, Hstack.
  - intros logToConsole name message cause shouldStore more error.
    destruct (shouldNotStore error) eqn:Hgate.
    + rewrite handleError_skips by exact Hgate. simpl.
      rewrite sends_app, sends_console. apply app_nil_r.
    + pose proof (handleError_stored_world env logToConsole error more w Hgate)
        as [_ [_ [_ [_ Hsends]]]].
      rewrite Hsends. subst error. simpl. rewrite Hstack. apply app_nil_r.
  - intros entry w0. rewrite reportError_run. simpl.
    rewrite sends_app, sends_report_events. reflexivity.
Qed.

Lemma reportError_needs_stack_witness :
  reportError plain_env stackless_entry empty_world = (Returned tt, empty_world).
Proof.
  exact (proj1 (reportError_needs_stack plain_env stackless_entry empty_world eq_refl)).
Defined.

(** C5. For an error whose [shouldStore] is absent or [true] and whose
    stack is non-empty, one call of [handleError] appends exactly one entry
    to the error log, built from the error, and sends exactly one remote
    report, on the [SEND_ERROR] action, whose [stack] is the error's stack
    and whose [error_name] is the error's name. *)
Theorem handleError_records_and_reports env logToConsole error more w
    (Hstore : Error.shouldStore error = VUndefined \/ Error.shouldStore error = VBool true)
    (Hstack : truthy (Error.stack error) = true) :
  let w' := snd (handleError env logToConsole error more w) in
  exists errorLogObj body,
    errorLog w' = errorLog w ++ [errorLogObj]
    /\ ErrorLog.name errorLogObj = Error.name error
    /\ ErrorLog.stack errorLogObj = Error.stack error
    /\ ErrorLog.message errorLogObj = Error.message error
    /\ sends (trace w') = sends (trace w) ++ [(SEND_ERROR, body)]
    /\ ReportBody.stack body = Error.stack error
    /\ ReportBody.error_name body = Error.name error
    /\ ReportBody.message body = Error.message error.
Proof.
  intros w'. subst w'.
  pose proof (handleError_stored_world env logToConsole error more w
                (shouldNotStore_default error Hstore)) as [Hlog [_ [_ [_ Hsends]]]].
  rewrite Hstack in Hsends.
  eexists _, _. split; [exact Hlog|].
  split; [reflexivity|]. split; [reflexivity|]. split; [reflexivity|].
  split; [exact Hsends|].
  repeat split; reflexivity.
Qed.

Lemma handleError_records_and_reports_witness :
  exists errorLogObj body,
    errorLog (snd (handleError plain_env false validation_error None empty_world)) =
      [errorLogObj]
    /\ sends (trace (snd (handleError plain_env false validation_error None empty_world))) =
      [(SEND_ERROR, body)]
    /\ ReportBody.stack body = VStr "trace..."
    /\ ReportBody.error_name body = VStr "ValidationError".
Proof.
  destruct (handleError_records_and_reports plain_env false validation_error None
              empty_world (or_introl eq_refl) eq_refl)
    as (errorLogObj & body & Hlog & _ & _ & _ & Hsends & Hstack & Hname & _).
  exists errorLogObj, body. repeat split; assumption.
Defined.

(** The toast of [handleError] shows the name of the error as it is: for a
    'ValidationError' the message is that name, which is not the label
    "Validation Error" the classifier gives it. *)
Lemma toast_message_is_the_raw_name :
  map ToastOptions.message
    (toasts (trace (snd (handleError plain_env false validation_error None empty_world)))) =
    [VStr "ValidationError"]
  /\ getErrorLabel plain_env validation_error = "Validation Error"
  /\ VStr "ValidationError" <> VStr (getErrorLabel plain_env validation_error).
Proof.
  split; [vm_compute; reflexivity|].
  split; [reflexivity|]. discriminate.
Qed.

(** C1, amended. For an error whose [shouldStore] is absent or [true] and
    whose stack is non-empty, once the remote report has resolved
    [handleError] presents one toast; its message is the error's own name
    (the translated "Error" only when the name is [null] or [undefined]),
    not the classifier's label; its type is 'error', its action text the
    translated "Report Error", and its action reports an issue for the entry
    just recorded. For 'ValidationError' the message is 'ValidationError'. *)
Theorem handleError_toast env logToConsole error more w
    (Hstore : Error.shouldStore error = VUndefined \/ Error.shouldStore error = VBool true)
    (Hstack : truthy (Error.stack error) = true)
    (Hipc : forall body, ipcInvoke_rejects env SEND_ERROR body = None) :
  let w' := snd (handleError env logToConsole error more w) in
  exists props,
    toasts (trace w') = toasts (trace w) ++ [props]
    /\ ToastOptions.message props = coalesce (Error.name error) (VStr (t env "Error"))
    /\ (forall s, Error.name error = VStr s -> ToastOptions.message props = VStr s)
    /\ ToastOptions.type props = "error"
    /\ ToastOptions.actionText props = t env "Report Error"
    /\ ToastOptions.action props = ReportIssue (recorded error (context_loc more w)).
Proof.
  intros w'. subst w'.
  rewrite handleError_run by (apply shouldNotStore_default, Hstore).
  set (errorLogObj := recorded error (context_loc more w)).
  set (w1 := recorded_world logToConsole error more w).
  assert (Htr : toasts (trace w1) = toasts (trace w)).
  { subst w1. simpl. rewrite toasts_app, toasts_console. apply app_nil_r. }
  unfold report_outcome. cbn [ErrorLog.stack errorLogObj recorded].
  rewrite Hstack, Hipc. clearbody w1.
  unfold outcome_of, with_trace; cbn [snd trace].
  exists (getToastProps env errorLogObj).
  split.
  - rewrite !toasts_app, toasts_report_events, Htr. reflexivity.
  - split; [reflexivity|]. split; [|repeat split; reflexivity].
    intros s Hname. simpl. rewrite Hname. reflexivity.
Qed.

Lemma handleError_toast_witness :
  exists props,
    toasts (trace (snd (handleError plain_env false validation_error None empty_world))) =
      [props]
    /\ ToastOptions.message props = VStr "ValidationError".
Proof.
  destruct (handleError_toast plain_env false validation_error None empty_world
              (or_introl eq_refl) eq_refl (fun _ => eq_refl))
    as (props & Htoasts & _ & Hname & _).
  exists props. split; [exact Htoasts|]. apply Hname. reflexivity.
Defined.

(** ** Claims about the label classifier *)

(** 'BaseError' and 'NotImplemented' are two of the ten names, and the
    classifier gives both the label of an unknown name: the labels of the
    ten names are not distinct. *)
Lemma recognized_labels_not_distinct :
  ~ (forall a b, In a recognized -> In b recognized -> a <> b ->
       getErrorLabel plain_env (named a) <> getErrorLabel plain_env (named b)).
Proof.
  intros Hdistinct.
  apply (Hdistinct "BaseError" "NotImplemented").
  - simpl. tauto.
  - simpl. tauto.
  - discriminate.
  - reflexivity.
Qed.

(** C2, amended. The classifier is total and depends on the name only.
    As long as the translations of its nine label literals are not empty,
    its label is never empty, whatever the name (a string, the empty string,
    or no string at all). 'ValidationError', 'NotFoundError',
    'ForbiddenError', 'DuplicateEntryError', 'LinkValidationError',
    'MandatoryError', 'DatabaseError' and 'CannotCommitError' get "Validation
    Error", "Not Found", "Forbidden Error", "Duplicate Entry", "Link
    Validation Error", "Mandatory Error", "Database Error" and "Cannot Commit
    Error"; under a translation that keeps the nine literals distinct these
    eight labels differ from one another and from the generic one.
    'BaseError' and 'NotImplemented' get the generic "Error", as do the empty
    name and every name outside the table, so any two unrecognized names
    share one label. *)
Theorem getErrorLabel_table env :
  ((forall lit, In lit labels -> t env lit <> "") ->
   forall error, getErrorLabel env error <> "")
  /\ (forall error s, Error.name error = VStr s ->
        getErrorLabel env error = getErrorLabel env (named s))
  /\ map (fun s => getErrorLabel env (named s)) recognized =
     map (t env)
       [ "Error"; "Validation Error"; "Not Found"; "Forbidden Error";
         "Duplicate Entry"; "Link Validation Error"; "Mandatory Error";
         "Database Error"; "Cannot Commit Error"; "Error" ]
  /\ ((forall a b, In a labels -> In b labels -> t env a = t env b -> a = b) ->
      NoDup (t env "Error" :: map (fun s => getErrorLabel env (named s)) specific))
  /\ getErrorLabel env (named "") = t env "Error"
  /\ (forall error s, Error.name error = VStr s -> ~ In s recognized ->
        getErrorLabel env error = t env "Error")
  /\ (forall a b, ~ In a recognized -> ~ In b recognized ->
        getErrorLabel env (named a) = getErrorLabel env (named b)).
Proof.
  split; [|split; [|split; [|split; [|split; [|split]]]]].
  - intros Hnonempty error Hempty.
    pose proof (getErrorLabel_cases env error) as Hin.
    apply in_map_iff in Hin as (lit & Hlit & Hin).
    apply (Hnonempty lit Hin). congruence.
  - intros error s. apply getErrorLabel_name.
  - reflexivity.
  - intros Hdistinct.
    change (NoDup (map (t env) labels)).
    apply NoDup_fmap_2_strong.
    + intros a b Ha Hb. apply Hdistinct; apply list_elem_of_In; assumption.
    + apply NoDup_ListNoDup. unfold labels.
      repeat (constructor; [simpl; intuition discriminate|]). constructor.
  - reflexivity.
  - intros error s. apply getErrorLabel_unrecognized.
  - intros a b Ha Hb.
    rewrite (getErrorLabel_unrecognized env (named a) a eq_refl Ha).
    rewrite (getErrorLabel_unrecognized env (named b) b eq_refl Hb).
    reflexivity.
Qed.

Lemma getErrorLabel_table_witness :
  getErrorLabel plain_env (named "TypeError") <> ""
  /\ getErrorLabel plain_env (named "ValidationError") = "Validation Error"
  /\ NoDup ("Error" :: map (fun s => getErrorLabel plain_env (named s)) specific)
  /\ getErrorLabel plain_env (named "TypeError") = getErrorLabel plain_env (named "").
Proof.
  destruct (getErrorLabel_table plain_env)
    as (Hne & _ & Htable & Hdistinct & _ & _ & Hsame).
  split.
  { apply Hne. intros lit Hlit Hempty. simpl in Hempty. subst lit.
    simpl in Hlit. intuition discriminate. }
  split; [exact (f_equal (fun labels => nth 1 labels "") Htable)|].
  split; [apply Hdistinct; intros a b _ _ Hab; exact Hab|].
  apply Hsame; simpl; intuition discriminate.
Defined.

(** ** Claims about [getErrorLogObject] *)

Lemma getErrorLogObject_heap error l o w :
  heap w !! l = Some o ->
  heap (snd (getErrorLogObject error l w)) =
  if truthy (Error.cause error)
  then <[l := <["cause" := Error.cause error]> o]> (heap w)
  else heap w.
Proof.
  intros Hctx. rewrite getErrorLogObject_run. simpl. unfold merge_cause.
  destruct (truthy (Error.cause error)); [|reflexivity].
  apply map_eq. intros l'.
  destruct (decide (l = l')) as [<-|Hne].
  - rewrite lookup_alter_eq, lookup_insert_eq, Hctx. reflexivity.
  - rewrite lookup_alter_ne, lookup_insert_ne by exact Hne. reflexivity.
Qed.

(** A context that already has a [cause] of its own loses that value when
    the error carries a cause: the key stays, the original value does not. *)
Lemma context_cause_is_overwritten :
  ~ (forall errorLogObj w',
       getErrorLogObject caused_error 0 cause_world = (Returned errorLogObj, w') ->
       forall key v, cause_context !! key = Some v ->
         more_property errorLogObj w' key = Some v).
Proof.
  intros Hkept.
  specialize (Hkept (recorded caused_error 0)
                (snd (getErrorLogObject caused_error 0 cause_world)) eq_refl
                "cause" (VNum 1) eq_refl).
  vm_compute in Hkept. discriminate Hkept.
Qed.

(** C6, amended. Recording an error returns the entry built from the
    error's name, stack and message, whose [more] is the context mapping it
    was given, and appends that entry at the end of the error log. Every key
    of the context is still a key of [more]; every key other than [cause]
    keeps its value; when the error's cause is truthy the key [cause] holds
    that cause, replacing a [cause] the context may have had; when it is not,
    the context is unchanged. *)
Theorem getErrorLogObject_keeps_context error l o w
    (Hctx : heap w !! l = Some o) :
  let r := getErrorLogObject error l w in
  let errorLogObj := recorded error l in
  let o' := if truthy (Error.cause error) then <["cause" := Error.cause error]> o else o in
  fst r = Returned errorLogObj
  /\ ErrorLog.more errorLogObj = Some l
  /\ heap (snd r) !! l = Some o'
  /\ (forall key, more_property errorLogObj (snd r) key = o' !! key)
  /\ (forall key, is_Some (o !! key) -> is_Some (o' !! key))
  /\ (forall key, key <> "cause" -> o' !! key = o !! key)
  /\ (truthy (Error.cause error) = true -> o' !! "cause" = Some (Error.cause error))
  /\ (truthy (Error.cause error) = false -> o' = o)
  /\ errorLog (snd r) = errorLog w ++ [errorLogObj]
  /\ last (errorLog (snd r)) = Some errorLogObj.
Proof.
  intros r errorLogObj o'.
  assert (Hheap : heap (snd r) !! l = Some o').
  { subst r o'. rewrite (getErrorLogObject_heap error l o w Hctx).
    destruct (truthy (Error.cause error)); [apply lookup_insert_eq | exact Hctx]. }
  assert (Hlog : errorLog (snd r) = errorLog w ++ [errorLogObj]).
  { subst r. rewrite getErrorLogObject_run. reflexivity. }
  split; [subst r; rewrite getErrorLogObject_run; reflexivity|].
  split; [reflexivity|]. split; [exact Hheap|].
  split; [intros key; unfold more_property; simpl; rewrite Hheap; reflexivity|].
  split.
  { intros key Hkey. subst o'. destruct (truthy (Error.cause error)); [|exact Hkey].
    apply lookup_insert_is_Some'. right. exact Hkey. }
  split.
  { intros key Hkey. subst o'. destruct (truthy (Error.cause error)); [|reflexivity].
    apply lookup_insert_ne. congruence. }
  split; [intros Hc; subst o'; rewrite Hc; apply lookup_insert_eq|].
  split; [intros Hc; subst o'; rewrite Hc; reflexivity|].
  split; [exact Hlog|].
  rewrite Hlog. apply last_snoc.
Qed.

Lemma getErrorLogObject_keeps_context_witness :
  let r := getErrorLogObject caused_error 0 plain_world in
  more_property (recorded caused_error 0) (snd r) "a" = Some (VNum 1)
  /\ more_property (recorded caused_error 0) (snd r) "cause" = Some (VStr "disk full").
Proof.
  destruct (getErrorLogObject_keeps_context caused_error 0 plain_context plain_world eq_refl)
    as (_ & _ & _ & Hmore & _ & Hother & Hcause & _).
  split.
  - rewrite Hmore, Hother by discriminate. reflexivity.
  - rewrite Hmore. apply Hcause. reflexivity.
Defined.

(** A cause of [0] is not [null], and nothing is written for it: the test
    of the source is truthiness. *)
Lemma falsy_cause_is_not_written :
  nullish (Error.cause zero_caused_error) = false
  /\ exists errorLogObj w',
       getErrorLogObject zero_caused_error 0 plain_world = (Returned errorLogObj, w')
       /\ heap w' = heap plain_world
       /\ more_property errorLogObj w' "cause" = None.
Proof.
  split; [reflexivity|].
  exists (recorded zero_caused_error 0),
         (snd (getErrorLogObject zero_caused_error 0 plain_world)).
  split; [reflexivity|]. split; [reflexivity|]. vm_compute. reflexivity.
Qed.

(** C10, amended. [getErrorLogObject] works on the caller's context object
    itself: no object is allocated, the [more] of the returned entry is the
    very reference the caller passed, and every other object of the store is
    untouched. When the error's cause is truthy (as every object is; [null],
    [undefined], [0], the empty string and [false] are not) the key [cause]
    of that object is set to it and every other key keeps its value; when it
    is not, the store is unchanged. *)
Theorem getErrorLogObject_writes_in_place error l o w
    (Hctx : heap w !! l = Some o) :
  let r := getErrorLogObject error l w in
  (exists errorLogObj, fst r = Returned errorLogObj /\ ErrorLog.more errorLogObj = Some l)
  /\ dom (heap (snd r)) = dom (heap w)
  /\ (forall l', l' <> l -> heap (snd r) !! l' = heap w !! l')
  /\ (truthy (Error.cause error) = true ->
        heap (snd r) !! l = Some (<["cause" := Error.cause error]> o))
  /\ (truthy (Error.cause error) = false -> heap (snd r) = heap w)
  /\ (forall o', heap (snd r) !! l = Some o' ->
        forall key, key <> "cause" -> o' !! key = o !! key).
Proof.
  intros r. subst r.
  pose proof (getErrorLogObject_heap error l o w Hctx) as Hheap.
  split; [exists (recorded error l); rewrite getErrorLogObject_run; split; reflexivity|].
  rewrite Hheap. clear Hheap.
  destruct (truthy (Error.cause error)).
  - split.
    { rewrite dom_insert_L.
      assert (Hin : l ∈ dom (heap w)) by (apply elem_of_dom; eauto).
      apply subseteq_union_1_L, singleton_subseteq_l, Hin. }
    split; [intros l' Hne; apply lookup_insert_ne; congruence|].
    split; [intros _; apply lookup_insert_eq|].
    split; [discriminate|].
    intros o' Ho' key Hkey. rewrite lookup_insert_eq in Ho'.
    injection Ho' as <-. apply lookup_insert_ne. congruence.
  - split; [reflexivity|]. split; [reflexivity|].
    split; [discriminate|]. split; [reflexivity|].
    intros o' Ho' key _. congruence.
Qed.

Lemma getErrorLogObject_writes_in_place_witness :
  heap (snd (getErrorLogObject caused_error 0 plain_world)) !! 0 =
  Some (<["cause" := VStr "disk full"]> plain_context).
Proof.
  destruct (getErrorLogObject_writes_in_place caused_error 0 plain_context plain_world eq_refl)
    as (_ & _ & _ & Hwritten & _).
  apply Hwritten. reflexivity.
Defined.

(** ** Claims about [handleErrorWithDialog] *)

Lemma dialogs_console logToConsole error : dialogs (console logToConsole error) = [].
Proof. destruct logToConsole; reflexivity. Qed.

Lemma dialogs_report_events env errorLogObj w :
  dialogs (report_events env errorLogObj w) = [].
Proof.
  unfold report_events.
  destruct (truthy _); [|reflexivity].
  destruct (Store.isDevelopment _); reflexivity.
Qed.

(** [handleError] shows no dialog, leaves the store record alone, and
    returns when the transport and the toast do. *)
Lemma handleError_frame env logToConsole error more w :
  let r := handleError env logToConsole error more w in
  dialogs (trace (snd r)) = dialogs (trace w)
  /\ store (snd r) = store w
  /\ unhandledRejections (snd r) = unhandledRejections w
  /\ ((forall body, ipcInvoke_rejects env SEND_ERROR body = None) ->
      (forall props, showToast_rejects env props = None) ->
      fst r = Returned tt).
Proof.
  intros r. subst r.
  destruct (shouldNotStore error) eqn:Hgate.
  - rewrite handleError_skips by exact Hgate. simpl.
    rewrite dialogs_app, dialogs_console, app_nil_r. repeat split; reflexivity.
  - rewrite handleError_run by exact Hgate.
    set (errorLogObj := recorded error (context_loc more w)).
    set (w1 := recorded_world logToConsole error more w).
    assert (Hd : dialogs (trace w1) = dialogs (trace w)).
    { subst w1. simpl. rewrite dialogs_app, dialogs_console. apply app_nil_r. }
    assert (Hst : store w1 = store w) by reflexivity.
    assert (Hur : unhandledRejections w1 = unhandledRejections w) by reflexivity.
    assert (Hout : (forall body, ipcInvoke_rejects env SEND_ERROR body = None) ->
                   report_outcome env errorLogObj w1 = Returned tt).
    { intros Hipc. unfold report_outcome. rewrite Hipc.
      destruct (truthy _); reflexivity. }
    clearbody w1.
    destruct (report_outcome env errorLogObj w1) as [[]|reason];
      unfold with_trace; cbn [fst snd trace store unhandledRejections].
    + rewrite !dialogs_app, dialogs_report_events, Hd. simpl. rewrite app_nil_r.
      repeat split; try assumption.
      intros _ Htoast. rewrite Htoast. reflexivity.
    + rewrite !dialogs_app, dialogs_report_events, Hd, app_nil_r.
      repeat split; try assumption.
      intros Hipc _. specialize (Hout Hipc). discriminate Hout.
Qed.

Lemma handleErrorWithDialog_run env error doc reportError dontThrow w :
  let options := dialogOptions env error doc reportError in
  let handled :=
    handleError env false error (Some (fresh (dom (heap w))))
      (allocated (dialogContext env error doc) w) in
  let shown := with_trace (trace (snd handled) ++ [ShowMessageDialog options]) (snd handled) in
  handleErrorWithDialog env error doc reportError dontThrow w =
  match fst handled with
  | Thrown reason => (Thrown reason, snd handled)
  | Returned _ =>
      match showMessageDialog_rejects env options with
      | Some reason => (Thrown reason, shown)
      | None =>
          if truthy dontThrow
          then (Returned tt,
                with_trace
                  (trace shown ++
                   (if Store.isDevelopment (store shown) then [ConsoleError error] else []))
                  shown)
          else (Thrown error, shown)
      end
  end.
Proof.
  intros options handled shown.
  unfold handleErrorWithDialog. unfold bind at 1. unfold alloc.
  unfold bind at 1.
  change (handleError env false error (Some (fresh (dom (heap w))))
            (with_heap _ w)) with handled.
  destruct handled as [[[]|reason] w1] eqn:Hhandled; [|reflexivity].
  cbn [fst snd] in *.
  assert (Hopt : (if truthy reportError
     then {| MessageDialogOptions.message := getErrorLabel env error;
             MessageDialogOptions.detail := truncate env (getErrorMessage env error doc) 128;
             MessageDialogOptions.buttons :=
               Some [ {| Button.label := t env "Report";
                         Button.action :=
                           ReportIssueOfError error (getErrorMessage env error doc) |};
                      {| Button.label := t env "Cancel"; Button.action := NoAction |} ] |}
     else {| MessageDialogOptions.message := getErrorLabel env error;
             MessageDialogOptions.detail := getErrorMessage env error doc;
             MessageDialogOptions.buttons := None |}) = options) by reflexivity.
  cbn [MessageDialogOptions.message MessageDialogOptions.detail].
  rewrite Hopt. clearbody options.
  unfold showMessageDialog. unfold bind at 1. rewrite bind_emit. fold shown.
  destruct (showMessageDialog_rejects env options); simpl; [reflexivity|].
  destruct (truthy dontThrow); [|reflexivity].
  subst shown. run. destruct (Store.isDevelopment (store w1)); run.
  - reflexivity.
  - rewrite app_nil_r; reflexivity.
Qed.

Lemma length_append (s1 s2 : string) :
  String.length (s1 +:+ s2) = String.length s1 + String.length s2.
Proof. induction s1 as [|c s1 IH]; simpl; [reflexivity|]. rewrite IH. reflexivity. Qed.

Lemma append_assoc (a b c : string) : (a +:+ b) +:+ c = a +:+ b +:+ c.
Proof.
  induction a as [|x a IH]; [reflexivity|].
  change (String x ((a +:+ b) +:+ c) = String x (a +:+ b +:+ c)).
  f_equal. exact IH.
Qed.

Lemma append_nil_r (s : string) : s +:+ "" = s.
Proof.
  induction s as [|c s IH]; [reflexivity|].
  change (String c (s +:+ "") = String c s). f_equal. exact IH.
Qed.

Lemma concat_empty_cons (x : string) (xs : list string) :
  String.concat "" (x :: xs) = x +:+ String.concat "" xs.
Proof. destruct xs; [symmetry; apply append_nil_r | reflexivity]. Qed.

Lemma concat_empty_app (xs ys : list string) :
  String.concat "" (xs ++ ys) = String.concat "" xs +:+ String.concat "" ys.
Proof.
  induction xs as [|x xs IH]; [reflexivity|].
  change ((x :: xs) ++ ys) with (x :: (xs ++ ys)).
  rewrite !concat_empty_cons, IH. symmetry. apply append_assoc.
Qed.

Lemma length_concat_singles (xs : list string) :
  Forall (fun sym => String.length sym = 1) xs ->
  String.length (String.concat "" xs) = length xs.
Proof.
  induction 1 as [|x xs Hx _ IH]; [reflexivity|].
  rewrite concat_empty_cons, length_append, Hx, IH. reflexivity.
Qed.

Lemma characters_length (s : string) : length (characters s) = String.length s.
Proof. induction s as [|c s IH]; [reflexivity|]. simpl. f_equal. exact IH. Qed.

Lemma characters_concat (s : string) : String.concat "" (characters s) = s.
Proof.
  induction s as [|c s IH]; [reflexivity|].
  change (characters (String c s)) with (String c "" :: characters s).
  rewrite concat_empty_cons, IH. reflexivity.
Qed.

Lemma characters_take (n : nat) (s : string) :
  String.concat "" (take n (characters s)) = String.substring 0 n s.
Proof.
  revert s. induction n as [|n IH]; intros [|c s]; try reflexivity.
  change (take (S n) (characters (String c s)))
    with (String c "" :: take n (characters s)).
  rewrite concat_empty_cons, IH. reflexivity.
Qed.

(** The truncation of lodash on text whose symbols are its bytes. *)
Lemma lodash_truncate_characters (s : string) :
  lodash_truncate s 128 =
  if (length (characters s) <=? 128)%nat then s
  else String.concat "" (take 125 (characters s)) +:+ "...".
Proof.
  rewrite characters_length, characters_take. unfold lodash_truncate.
  destruct (String.length s <=? 128)%nat; reflexivity.
Qed.

Lemma handleErrorWithDialog_dialogs env error doc reportError dontThrow w :
  (forall body, ipcInvoke_rejects env SEND_ERROR body = None) ->
  (forall props, showToast_rejects env props = None) ->
  dialogs (trace (snd (handleErrorWithDialog env error doc reportError dontThrow w))) =
  dialogs (trace w) ++ [dialogOptions env error doc reportError].
Proof.
  intros Hipc Htoast. rewrite handleErrorWithDialog_run.
  pose proof (handleError_frame env false error (Some (fresh (dom (heap w))))
                (allocated (dialogContext env error doc) w))
    as (Hd & _ & _ & Hret).
  cbv zeta in Hd, Hret. rewrite (Hret Hipc Htoast).
  change (trace (allocated (dialogContext env error doc) w)) with (trace w) in Hd.
  set (handled := handleError _ _ _ _ _) in *. clearbody handled.
  destruct (showMessageDialog_rejects env _); [|destruct (truthy dontThrow)];
    unfold with_trace; cbn [snd trace store]; rewrite ?dialogs_app, Hd; simpl.
  - reflexivity.
  - destruct (Store.isDevelopment _); simpl; rewrite ?app_nil_r; reflexivity.
  - reflexivity.
Qed.

(** C8. As long as the transport, the toast and the dialog resolve,
    [handleErrorWithDialog] shows the dialog and then re-raises the original
    error to its caller, unless [dontThrow] is set: then it returns normally,
    after writing the error to the console when in development mode. In
    particular [handleErrorWithDialog(error, undefined, false, true)]
    returns. *)
Theorem handleErrorWithDialog_rethrows env error doc reportError dontThrow w
    (Hipc : forall body, ipcInvoke_rejects env SEND_ERROR body = None)
    (Htoast : forall props, showToast_rejects env props = None)
    (Hdialog : forall options, showMessageDialog_rejects env options = None) :
  let r := handleErrorWithDialog env error doc reportError dontThrow w in
  let handled :=
    handleError env false error (Some (fresh (dom (heap w))))
      (allocated (dialogContext env error doc) w) in
  fst r = (if truthy dontThrow then Returned tt else Thrown error)
  /\ trace (snd r) =
     trace (snd handled)
     ++ [ShowMessageDialog (dialogOptions env error doc reportError)]
     ++ (if truthy dontThrow && Store.isDevelopment (store w)
         then [ConsoleError error] else [])
  /\ fst (handleErrorWithDialog env error VUndefined (VBool false) (VBool true) w) =
     Returned tt.
Proof.
  assert (Hgen : forall doc' reportError' dontThrow',
    let r := handleErrorWithDialog env error doc' reportError' dontThrow' w in
    let handled :=
      handleError env false error (Some (fresh (dom (heap w))))
        (allocated (dialogContext env error doc') w) in
    fst r = (if truthy dontThrow' then Returned tt else Thrown error)
    /\ trace (snd r) =
       trace (snd handled)
       ++ [ShowMessageDialog (dialogOptions env error doc' reportError')]
       ++ (if truthy dontThrow' && Store.isDevelopment (store w)
           then [ConsoleError error] else [])).
  { intros doc' reportError' dontThrow' r handled. subst r.
    rewrite handleErrorWithDialog_run. fold handled.
    pose proof (handleError_frame env false error (Some (fresh (dom (heap w))))
                  (allocated (dialogContext env error doc') w))
      as (_ & Hst & _ & Hret).
    cbv zeta in Hst, Hret. fold handled in Hst, Hret.
    rewrite (Hret Hipc Htoast), Hdialog.
    change (store (allocated (dialogContext env error doc') w)) with (store w) in Hst.
    clearbody handled.
    destruct (truthy dontThrow'); unfold with_trace; cbn [fst snd trace store];
      rewrite ?Hst.
    - split; [reflexivity|]. rewrite <- app_assoc. reflexivity.
    - split; reflexivity. }
  intros r handled.
  destruct (Hgen doc reportError dontThrow) as [Hout Htrace].
  split; [exact Hout|]. split; [exact Htrace|].
  exact (proj1 (Hgen VUndefined (VBool false) (VBool true))).
Qed.

Lemma handleErrorWithDialog_rethrows_witness :
  fst (handleErrorWithDialog plain_env validation_error VUndefined (VBool false)
         (VBool true) empty_world) = Returned tt
  /\ fst (handleErrorWithDialog plain_env validation_error VUndefined VUndefined
            VUndefined empty_world) = Thrown validation_error.
Proof.
  split.
  - exact (proj1 (handleErrorWithDialog_rethrows plain_env validation_error VUndefined
                    (VBool false) (VBool true) empty_world
                    (fun _ => eq_refl) (fun _ => eq_refl) (fun _ => eq_refl))).
  - exact (proj1 (handleErrorWithDialog_rethrows plain_env validation_error VUndefined
                    VUndefined VUndefined empty_world
                    (fun _ => eq_refl) (fun _ => eq_refl) (fun _ => eq_refl))).
Defined.

(** C9. Once [handleError] has resolved, [handleErrorWithDialog] shows one
    dialog whose message is the classified label. When [reportError] is
    requested its detail is the display message passed through [truncate]
    with length 128, and its buttons are "Report", which reports an issue for
    the error and the display message, and "Cancel", which does nothing. With
    [truncate] doing what lodash does, on the symbols lodash counts, a
    display message of at most 128 symbols is shown whole, and a longer one
    (one of 500, say) is cut to its first 125 symbols followed by the three
    dots of the omission: at most 128 characters, the suffix included. When
    [reportError] is not requested the detail is the whole display message
    and there are no buttons. *)
Theorem handleErrorWithDialog_detail env error doc reportError dontThrow w
    (symbols : string -> list string)
    (Hipc : forall body, ipcInvoke_rejects env SEND_ERROR body = None)
    (Htoast : forall props, showToast_rejects env props = None)
    (Hsymbols : forall s, String.concat "" (symbols s) = s)
    (Htruncate : forall s,
       truncate env s 128 =
       if (length (symbols s) <=? 128)%nat then s
       else String.concat "" (take 125 (symbols s)) +:+ "...") :
  let r := handleErrorWithDialog env error doc reportError dontThrow w in
  let errorMessage := getErrorMessage env error doc in
  exists options,
    dialogs (trace (snd r)) = dialogs (trace w) ++ [options]
    /\ MessageDialogOptions.message options = getErrorLabel env error
    /\ if truthy reportError
       then MessageDialogOptions.detail options = truncate env errorMessage 128
            /\ (if (length (symbols errorMessage) <=? 128)%nat
                then MessageDialogOptions.detail options = errorMessage
                else exists kept rest,
                       symbols errorMessage = kept ++ rest
                       /\ length kept = 125
                       /\ errorMessage = String.concat "" kept +:+ String.concat "" rest
                       /\ MessageDialogOptions.detail options =
                          String.concat "" kept +:+ "...")
            /\ (Forall (fun sym => String.length sym = 1) (symbols errorMessage) ->
                String.length (MessageDialogOptions.detail options) <= 128)
            /\ MessageDialogOptions.buttons options =
               Some [ Button.mk (t env "Report") (ReportIssueOfError error errorMessage);
                      Button.mk (t env "Cancel") NoAction ]
       else MessageDialogOptions.detail options = errorMessage
            /\ MessageDialogOptions.buttons options = None.
Proof.
  intros r errorMessage. subst r.
  exists (dialogOptions env error doc reportError).
  split; [apply handleErrorWithDialog_dialogs; assumption|].
  unfold dialogOptions. fold errorMessage.
  destruct (truthy reportError); cbn [MessageDialogOptions.message
    MessageDialogOptions.detail MessageDialogOptions.buttons];
    [|repeat split; reflexivity].
  split; [reflexivity|]. split; [reflexivity|].
  rewrite Htruncate.
  destruct (Nat.leb_spec (length (symbols errorMessage)) 128) as [Hshort|Hlong].
  - split; [reflexivity|]. split; [|reflexivity].
    intros Hsingles.
    rewrite <- (Hsymbols errorMessage), (length_concat_singles _ Hsingles).
    exact Hshort.
  - assert (Hkept : length (take 125 (symbols errorMessage)) = 125)
      by (rewrite length_take; lia).
    split.
    { exists (take 125 (symbols errorMessage)), (drop 125 (symbols errorMessage)).
      split; [symmetry; apply take_drop|]. split; [exact Hkept|].
      split; [|reflexivity].
      rewrite <- concat_empty_app, take_drop. symmetry. apply Hsymbols. }
    split; [|reflexivity].
    intros Hsingles. rewrite length_append, length_concat_singles.
    + rewrite Hkept. simpl. lia.
    + apply Forall_take, Hsingles.
Qed.

Lemma handleErrorWithDialog_detail_witness :
  String.length (getErrorMessage plain_env long_error VUndefined) = 500
  /\ exists options,
       dialogs (trace (snd (handleErrorWithDialog plain_env long_error VUndefined
                              (VBool true) VUndefined empty_world))) = [options]
       /\ MessageDialogOptions.detail options =
          String.substring 0 125 long_message +:+ "..."
       /\ String.length (MessageDialogOptions.detail options) = 128
       /\ map Button.label (default [] (MessageDialogOptions.buttons options)) =
          ["Report"; "Cancel"].
Proof.
  split; [vm_compute; reflexivity|].
  destruct (handleErrorWithDialog_detail plain_env long_error VUndefined (VBool true)
              VUndefined empty_world characters (fun _ => eq_refl) (fun _ => eq_refl)
              characters_concat lodash_truncate_characters)
    as (options & Hdialogs & _ & Hdetail & _ & _ & Hbuttons).
  exists options. split; [exact Hdialogs|].
  assert (Hvalue : MessageDialogOptions.detail options =
                   String.substring 0 125 long_message +:+ "...").
  { rewrite Hdetail. vm_compute. reflexivity. }
  split; [exact Hvalue|]. split; [rewrite Hvalue; vm_compute; reflexivity|].
  rewrite Hbuttons. reflexivity.
Defined.

(** A transport that rejects makes the handling settle by rejecting, and
    then nothing re-raises the original error: the continuation that would
    throw it is skipped, the synchronous wrapper has long returned
    [undefined], and what is left unhandled is the transport's reason. The
    asynchronous wrapper, too, throws that reason and not the error. *)
Lemma rejected_handling_hides_the_error :
  Function.call failing [VNum 7] empty_world = (Thrown validation_error, empty_world)
  /\ fst (handleError offline_env false validation_error None empty_world) =
     Thrown offline_reason
  /\ fst (getErrorHandledSync offline_env failing [VNum 7] empty_world) =
     Returned VUndefined
  /\ unhandledRejections (snd (getErrorHandledSync offline_env failing [VNum 7] empty_world)) =
     [offline_reason]
  /\ ~ In validation_error
       (unhandledRejections (snd (getErrorHandledSync offline_env failing [VNum 7] empty_world)))
  /\ fst (getErrorHandled offline_env failing [VNum 7] empty_world) <>
     Thrown validation_error.
Proof.
  split; [reflexivity|]. split; [vm_compute; reflexivity|].
  split; [vm_compute; reflexivity|]. split; [vm_compute; reflexivity|].
  split.
  - vm_compute. intros [Hsame|[]]. discriminate Hsame.
  - vm_compute. discriminate.
Qed.

(** C7, amended. When the wrapped operation returns, both wrappers return
    its result and leave the world as the operation left it. When it throws,
    both call [handleError(false, error, {functionName, functionArgs})] on a
    new context object holding the name of the operation and the arguments
    of the call. The asynchronous wrapper awaits that call and then, the
    handling having resolved, throws the original error to its caller; a
    rejection of the handling reaches the caller in its place. The
    synchronous wrapper never throws to its caller: it returns [undefined],
    and the original error is thrown only in the continuation attached to
    the handling, which runs when the handling resolves and which nobody
    awaits, so that the error ends as one unhandled rejection; when the
    handling rejects, the continuation is skipped and the rejection of the
    handling is the one left unhandled. *)
Theorem wrappers_handle_then_rethrow env func args w r w1
    (Hcall : Function.call func args w = (r, w1)) :
  match r with
  | Returned v =>
      getErrorHandled env func args w = (Returned v, w1)
      /\ getErrorHandledSync env func args w = (Returned v, w1)
  | Thrown error =>
      let more := fresh (dom (heap w1)) in
      let context : Obj :=
        {[ "functionName" := VStr (Function.name func); "functionArgs" := VArr args ]} in
      let w2 := with_heap (<[more := context]> (heap w1)) w1 in
      let handled := handleError env false error (Some more) w2 in
      heap w1 !! more = None
      /\ context !! "functionName" = Some (VStr (Function.name func))
      /\ context !! "functionArgs" = Some (VArr args)
      /\ (forall key, key <> "functionName" -> key <> "functionArgs" -> context !! key = None)
      /\ heap w2 !! more = Some context
      /\ getErrorHandled env func args w =
         (match fst handled with
          | Returned _ => Thrown error
          | Thrown reason => Thrown reason
          end, snd handled)
      /\ fst (getErrorHandledSync env func args w) = Returned VUndefined
      /\ snd (getErrorHandledSync env func args w) =
         with_unhandledRejections
           (unhandledRejections w1 ++
            [match fst handled with
             | Returned _ => error
             | Thrown reason => reason
             end]) (snd handled)
      /\ ((forall body, ipcInvoke_rejects env SEND_ERROR body = None) ->
          (forall props, showToast_rejects env props = None) ->
          getErrorHandled env func args w = (Thrown error, snd handled)
          /\ getErrorHandledSync env func args w =
             (Returned VUndefined,
              with_unhandledRejections (unhandledRejections w1 ++ [error]) (snd handled)))
  end.
Proof.
  destruct r as [v|error].
  - unfold getErrorHandled, getErrorHandledSync, try_catch. rewrite Hcall.
    split; reflexivity.
  - intros more context w2 handled.
    pose proof (handleError_frame env false error (Some more) w2)
      as (_ & _ & Hur & Hret).
    cbv zeta in Hur, Hret. fold handled in Hur, Hret.
    change (unhandledRejections w2) with (unhandledRejections w1) in Hur.
    assert (Hasync : getErrorHandled env func args w =
      (match fst handled with
       | Returned _ => Thrown error
       | Thrown reason => Thrown reason
       end, snd handled)).
    { unfold getErrorHandled, try_catch. rewrite Hcall.
      unfold bind at 1. unfold alloc. unfold bind.
      change (handleError env false error (Some (fresh (dom (heap w1))))
                (with_heap _ w1)) with handled.
      destruct handled as [[[]|reason] w3]; reflexivity. }
    assert (Hsync : getErrorHandledSync env func args w =
      (Returned VUndefined,
       with_unhandledRejections
         (unhandledRejections w1 ++
          [match fst handled with
           | Returned _ => error
           | Thrown reason => reason
           end]) (snd handled))).
    { unfold getErrorHandledSync, try_catch. rewrite Hcall.
      unfold bind at 1. unfold alloc. unfold bind at 1.
      unfold detach, then_, bind.
      change (handleError env false error (Some (fresh (dom (heap w1))))
                (with_heap _ w1)) with handled.
      rewrite <- Hur.
      destruct handled as [[[]|reason] w3]; reflexivity. }
    split; [apply not_elem_of_dom, is_fresh|].
    split; [reflexivity|]. split; [reflexivity|].
    split.
    { intros key Hname Hargs. subst context.
      rewrite lookup_insert_ne by congruence.
      rewrite lookup_singleton_ne by congruence. reflexivity. }
    split; [apply lookup_insert_eq|].
    split; [exact Hasync|].
    split; [rewrite Hsync; reflexivity|].
    split; [rewrite Hsync; reflexivity|].
    intros Hipc Htoast. rewrite Hasync, Hsync, (Hret Hipc Htoast).
    split; reflexivity.
Qed.

Lemma wrappers_handle_then_rethrow_witness :
  (getErrorHandled plain_env first_argument [VNum 7] empty_world =
     (Returned (VNum 7), empty_world)
   /\ getErrorHandledSync plain_env first_argument [VNum 7] empty_world =
     (Returned (VNum 7), empty_world))
  /\ fst (getErrorHandled plain_env failing [VNum 7] empty_world) =
     Thrown validation_error
  /\ fst (getErrorHandledSync plain_env failing [VNum 7] empty_world) =
     Returned VUndefined
  /\ unhandledRejections (snd (getErrorHandledSync plain_env failing [VNum 7] empty_world)) =
     [validation_error].
Proof.
  split.
  - exact (wrappers_handle_then_rethrow plain_env first_argument [VNum 7] empty_world
             (Returned (VNum 7)) empty_world eq_refl).
  - destruct (wrappers_handle_then_rethrow plain_env failing [VNum 7] empty_world
                (Thrown validation_error) empty_world eq_refl)
      as (_ & _ & _ & _ & _ & _ & Hreturns & _ & Hresolved).
    destruct (Hresolved (fun _ => eq_refl) (fun _ => eq_refl)) as [Hasync Hsync].
    split; [rewrite Hasync; reflexivity|].
    split; [exact Hreturns|].
    rewrite Hsync. reflexivity.
Defined.

(** ** Further properties of the pipeline *)

(** X1. When the transport rejects the report of a stored error that has a
    stack, [handleError] rejects with the transport's reason and shows no
    toast; the error is in the log all the same, and the payload was handed
    to the transport once. *)
Theorem handleError_transport_rejects env logToConsole error more w reason
    (Hstore : shouldNotStore error = false)
    (Hstack : truthy (Error.stack error) = true)
    (Hrejects : forall body, ipcInvoke_rejects env SEND_ERROR body = Some reason) :
  let r := handleError env logToConsole error more w in
  fst r = Thrown reason
  /\ toasts (trace (snd r)) = toasts (trace w)
  /\ errorLog (snd r) = errorLog w ++ [recorded error (context_loc more w)]
  /\ length (sends (trace (snd r))) = S (length (sends (trace w))).
Proof.
  intros r. subst r.
  pose proof (handleError_stored_world env logToConsole error more w Hstore)
    as (Hlog & _ & _ & _ & Hsends).
  cbv zeta in Hlog, Hsends. rewrite Hstack in Hsends.
  split; [|split; [|split; [exact Hlog|]]].
  - rewrite handleError_run by exact Hstore. unfold report_outcome.
    cbn [recorded ErrorLog.stack]. rewrite Hstack, Hrejects. reflexivity.
  - rewrite handleError_run by exact Hstore. unfold report_outcome.
    cbn [recorded ErrorLog.stack]. rewrite Hstack, Hrejects.
    unfold outcome_of, with_trace; cbn [snd trace].
    rewrite toasts_app, toasts_report_events, app_nil_r.
    unfold recorded_world; cbn [trace].
    rewrite toasts_app, toasts_console. apply app_nil_r.
  - rewrite Hsends, length_app. simpl. lia.
Qed.

Lemma handleError_transport_rejects_witness :
  let r := handleError offline_env false validation_error None empty_world in
  fst r = Thrown offline_reason
  /\ toasts (trace (snd r)) = []
  /\ length (errorLog (snd r)) = 1.
Proof.
  destruct (handleError_transport_rejects offline_env false validation_error None
              empty_world offline_reason eq_refl eq_refl (fun _ => eq_refl))
    as (Hout & Htoasts & Hlog & _).
  split; [exact Hout|]. split; [exact Htoasts|]. cbv zeta. rewrite Hlog. reflexivity.
Defined.

(** X2. A stored error without a stack is recorded and shown in a toast
    like any other, without a word to the transport: whatever the transport
    would do, [handleError] returns when the toast resolves. *)
Theorem handleError_without_stack env logToConsole error more w
    (Hstore : shouldNotStore error = false)
    (Hstack : truthy (Error.stack error) = false)
    (Htoast : forall props, showToast_rejects env props = None) :
  let r := handleError env logToConsole error more w in
  let errorLogObj := recorded error (context_loc more w) in
  fst r = Returned tt
  /\ errorLog (snd r) = errorLog w ++ [errorLogObj]
  /\ toasts (trace (snd r)) = toasts (trace w) ++ [getToastProps env errorLogObj]
  /\ sends (trace (snd r)) = sends (trace w).
Proof.
  intros r errorLogObj. subst r.
  pose proof (handleError_stored_world env logToConsole error more w Hstore)
    as (Hlog & _ & _ & _ & Hsends).
  cbv zeta in Hlog, Hsends. rewrite Hstack, app_nil_r in Hsends.
  assert (Hrun := handleError_run env logToConsole error more w Hstore).
  cbv zeta in Hrun. fold errorLogObj in Hrun.
  unfold report_outcome, report_events in Hrun.
  cbn [recorded ErrorLog.stack errorLogObj] in Hrun.
  rewrite Hstack, Htoast in Hrun.
  split; [rewrite Hrun; reflexivity|].
  split; [exact Hlog|]. split; [|exact Hsends].
  rewrite Hrun. unfold with_trace, recorded_world; cbn [snd trace].
  rewrite !toasts_app, toasts_console, app_nil_r. reflexivity.
Qed.

Lemma handleError_without_stack_witness :
  let r := handleError offline_env false (named "NotFoundError") None empty_world in
  fst r = Returned tt
  /\ map ToastOptions.message (toasts (trace (snd r))) = [VStr "NotFoundError"]
  /\ sends (trace (snd r)) = [].
Proof.
  destruct (handleError_without_stack offline_env false (named "NotFoundError") None
              empty_world eq_refl eq_refl (fun _ => eq_refl))
    as (Hout & _ & Htoasts & Hsends).
  split; [exact Hout|]. split; [|exact Hsends].
  cbv zeta. rewrite Htoasts. reflexivity.
Defined.

Lemma handleError_heap env logToConsole error more w :
  heap (snd (handleError env logToConsole error more w)) =
  if shouldNotStore error then heap w
  else merge_cause error (context_loc more w) (context_heap more w).
Proof.
  destruct (shouldNotStore error) eqn:Hgate.
  - rewrite handleError_skips by exact Hgate. reflexivity.
  - pose proof (handleError_stored_world env logToConsole error more w Hgate)
      as (_ & Hheap & _). exact Hheap.
Qed.

Lemma merge_cause_other error l l' (h : gmap loc Obj) :
  l' <> l -> merge_cause error l h !! l' = h !! l'.
Proof.
  intros Hne. unfold merge_cause.
  destruct (truthy (Error.cause error)); [|reflexivity].
  apply lookup_alter_ne. congruence.
Qed.

Lemma fresh_not_present (h : gmap loc Obj) l :
  is_Some (h !! l) -> l <> fresh (dom h).
Proof.
  intros Hsome Heq. apply elem_of_dom in Hsome.
  pose proof (is_fresh (dom h)) as Hfresh. rewrite <- Heq in Hfresh. contradiction.
Qed.

(** X3. [handleError] never removes or rewrites anything: the log it leaves
    is the old log with at most one entry after it, the trace is the old
    trace with events after it, [fyo.store] is as it was, and every object
    that existed keeps all its properties, the context object passed as
    [more] alone excepted. *)
Theorem handleError_only_adds env logToConsole error more w :
  let w' := snd (handleError env logToConsole error more w) in
  (exists new, errorLog w' = errorLog w ++ new /\ length new <= 1)
  /\ (exists events, trace w' = trace w ++ events)
  /\ store w' = store w
  /\ (forall l, more <> Some l -> is_Some (heap w !! l) -> heap w' !! l = heap w !! l).
Proof.
  intros w'. subst w'.
  split; [|split; [|split]].
  - destruct (shouldNotStore error) eqn:Hgate.
    + rewrite handleError_skips by exact Hgate. exists []. simpl.
      rewrite app_nil_r. split; [reflexivity|lia].
    + pose proof (handleError_stored_world env logToConsole error more w Hgate)
        as (Hlog & _). eexists. split; [exact Hlog|simpl; lia].
  - destruct (shouldNotStore error) eqn:Hgate.
    + rewrite handleError_skips by exact Hgate. eexists. reflexivity.
    + rewrite handleError_run by exact Hgate.
      destruct (report_outcome _ _ _) as [[]|reason];
        unfold with_trace, recorded_world; cbn [snd trace];
        rewrite <- app_assoc; eexists; reflexivity.
  - apply (handleError_frame env logToConsole error more w).
  - intros l Hne Hsome. rewrite handleError_heap.
    destruct (shouldNotStore error); [reflexivity|].
    destruct more as [l0|]; simpl.
    + apply merge_cause_other. congruence.
    + pose proof (fresh_not_present (heap w) l Hsome) as Hfresh.
      rewrite merge_cause_other by exact Hfresh.
      apply lookup_insert_ne. congruence.
Qed.

Lemma merge_cause_lookup error l o (h : gmap loc Obj) :
  h !! l = Some o ->
  merge_cause error l h !! l =
  Some (if truthy (Error.cause error) then <["cause" := Error.cause error]> o else o).
Proof.
  intros Hctx. unfold merge_cause.
  destruct (truthy (Error.cause error)); [|exact Hctx].
  rewrite lookup_alter_eq, Hctx. reflexivity.
Qed.

Lemma merged_property error (o : Obj) key :
  key <> "cause" ->
  (if truthy (Error.cause error) then <["cause" := Error.cause error]> o else o) !! key =
  o !! key.
Proof.
  intros Hkey. destruct (truthy (Error.cause error)); [|reflexivity].
  apply lookup_insert_ne. congruence.
Qed.

(** How [handleError] settles when every collaborator it calls resolves, and
    when the transport rejects. *)
Lemma handleError_resolved env logToConsole error more w :
  shouldNotStore error = false ->
  (forall body, ipcInvoke_rejects env SEND_ERROR body = None) ->
  (forall props, showToast_rejects env props = None) ->
  let errorLogObj := recorded error (context_loc more w) in
  let w1 := recorded_world logToConsole error more w in
  handleError env logToConsole error more w =
  (Returned tt,
   with_trace (trace w1 ++ report_events env errorLogObj w1
               ++ [ShowToast (getToastProps env errorLogObj)]) w1).
Proof.
  intros Hstore Hipc Htoast errorLogObj w1.
  rewrite handleError_run by exact Hstore. fold errorLogObj w1.
  unfold report_outcome. rewrite Hipc, Htoast.
  destruct (truthy _); reflexivity.
Qed.

Lemma handleError_rejected env logToConsole error more w reason :
  shouldNotStore error = false ->
  truthy (Error.stack error) = true ->
  (forall body, ipcInvoke_rejects env SEND_ERROR body = Some reason) ->
  let errorLogObj := recorded error (context_loc more w) in
  let w1 := recorded_world logToConsole error more w in
  handleError env logToConsole error more w =
  (Thrown reason, with_trace (trace w1 ++ report_events env errorLogObj w1) w1).
Proof.
  intros Hstore Hstack Hrejects errorLogObj w1.
  rewrite handleError_run by exact Hstore. fold errorLogObj w1.
  unfold report_outcome. cbn [recorded ErrorLog.stack errorLogObj].
  rewrite Hstack, Hrejects. reflexivity.
Qed.

(** The entry [handleError] records for a context object made on the spot. *)
Lemma handled_context env error (ctx : Obj) w :
  shouldNotStore error = false ->
  let l := fresh (dom (heap w)) in
  let w' := snd (handleError env false error (Some l) (allocated ctx w)) in
  errorLog w' = errorLog w ++ [recorded error l]
  /\ (forall key, key <> "cause" -> more_property (recorded error l) w' key = ctx !! key).
Proof.
  intros Hstore l w'.
  pose proof (handleError_stored_world env false error (Some l) (allocated ctx w) Hstore)
    as (Hlog & Hheap & _).
  cbv zeta in Hlog, Hheap. fold w' in Hlog, Hheap.
  split; [exact Hlog|].
  intros key Hkey. unfold more_property. cbn [recorded ErrorLog.more mbind option_bind].
  rewrite Hheap. unfold recorded_world. cbn [heap context_loc context_heap].
  rewrite (merge_cause_lookup error l ctx) by apply lookup_insert_eq.
  cbn [mbind option_bind]. apply merged_property, Hkey.
Qed.

Lemma handleErrorWithDialog_state env error doc reportError dontThrow w :
  let handled :=
    handleError env false error (Some (fresh (dom (heap w))))
      (allocated (dialogContext env error doc) w) in
  let r := handleErrorWithDialog env error doc reportError dontThrow w in
  errorLog (snd r) = errorLog (snd handled) /\ heap (snd r) = heap (snd handled).
Proof.
  intros handled r. subst r. rewrite handleErrorWithDialog_run. fold handled.
  destruct (fst handled); [|split; reflexivity].
  destruct (showMessageDialog_rejects env _); [split; reflexivity|].
  destruct (truthy dontThrow); split; reflexivity.
Qed.

(** X4. [dontThrow] does not cover a failure of the handling itself: when
    the transport rejects the report of a stored error that has a stack,
    [handleErrorWithDialog] rejects with the transport's reason, whatever
    [dontThrow] says, and no dialog is shown; the error is in the log. *)
Theorem handleErrorWithDialog_transport_rejects env error doc reportError dontThrow w reason
    (Hstore : shouldNotStore error = false)
    (Hstack : truthy (Error.stack error) = true)
    (Hrejects : forall body, ipcInvoke_rejects env SEND_ERROR body = Some reason) :
  let r := handleErrorWithDialog env error doc reportError dontThrow w in
  fst r = Thrown reason
  /\ dialogs (trace (snd r)) = dialogs (trace w)
  /\ length (errorLog (snd r)) = S (length (errorLog w)).
Proof.
  intros r. subst r.
  pose proof (handleErrorWithDialog_state env error doc reportError dontThrow w)
    as [Hlog _].
  cbv zeta in Hlog.
  pose proof (handled_context env error (dialogContext env error doc) w Hstore)
    as [Hrecorded _].
  cbv zeta in Hrecorded.
  split; [|split].
  - rewrite handleErrorWithDialog_run.
    rewrite (handleError_rejected env false error _ _ reason Hstore Hstack Hrejects).
    reflexivity.
  - rewrite handleErrorWithDialog_run.
    rewrite (handleError_rejected env false error _ _ reason Hstore Hstack Hrejects).
    unfold with_trace, recorded_world; cbn [fst snd trace].
    rewrite dialogs_app, dialogs_report_events, app_nil_r.
    simpl. rewrite app_nil_r. reflexivity.
  - rewrite Hlog, Hrecorded, length_app. simpl. lia.
Qed.

Lemma handleErrorWithDialog_transport_rejects_witness :
  let r := handleErrorWithDialog offline_env validation_error VUndefined (VBool false)
             (VBool true) empty_world in
  fst r = Thrown offline_reason /\ dialogs (trace (snd r)) = [].
Proof.
  destruct (handleErrorWithDialog_transport_rejects offline_env validation_error
              VUndefined (VBool false) (VBool true) empty_world offline_reason
              eq_refl eq_refl (fun _ => eq_refl)) as (Hout & Hdialogs & _).
  split; [exact Hout | exact Hdialogs].
Defined.

(** X5. [handleErrorWithDialog] records a stored error once, whatever the
    collaborators do afterwards: the log gets one entry for the error, whose
    [more] is a new object holding the display message under [errorMessage]
    and the document under [doc]. *)
Theorem handleErrorWithDialog_records_once env error doc reportError dontThrow w
    (Hstore : shouldNotStore error = false) :
  let r := handleErrorWithDialog env error doc reportError dontThrow w in
  let errorLogObj := recorded error (fresh (dom (heap w))) in
  errorLog (snd r) = errorLog w ++ [errorLogObj]
  /\ heap w !! fresh (dom (heap w)) = None
  /\ more_property errorLogObj (snd r) "errorMessage" =
     Some (VStr (getErrorMessage env error doc))
  /\ more_property errorLogObj (snd r) "doc" = Some doc.
Proof.
  intros r errorLogObj. subst r.
  pose proof (handleErrorWithDialog_state env error doc reportError dontThrow w)
    as [Hlog Hheap].
  cbv zeta in Hlog, Hheap.
  pose proof (handled_context env error (dialogContext env error doc) w Hstore)
    as [Hrecorded Hprops].
  cbv zeta in Hrecorded, Hprops.
  split; [rewrite Hlog; exact Hrecorded|].
  split; [apply not_elem_of_dom, is_fresh|].
  unfold more_property in *. cbn [recorded ErrorLog.more mbind option_bind errorLogObj] in *.
  rewrite Hheap.
  split.
  - rewrite (Hprops "errorMessage") by discriminate. reflexivity.
  - rewrite (Hprops "doc") by discriminate. reflexivity.
Qed.

Lemma handleErrorWithDialog_records_once_witness :
  let r := handleErrorWithDialog plain_env validation_error (VRef 5) VUndefined
             (VBool true) empty_world in
  length (errorLog (snd r)) = 1
  /\ more_property (recorded validation_error (fresh (dom (heap empty_world)))) (snd r)
       "doc" = Some (VRef 5).
Proof.
  destruct (handleErrorWithDialog_records_once plain_env validation_error (VRef 5)
              VUndefined (VBool true) empty_world eq_refl) as (Hlog & _ & _ & Hdoc).
  split; [cbv zeta; rewrite Hlog; reflexivity | exact Hdoc].
Defined.

(** What the wrappers do with an operation that throws. *)
Lemma getErrorHandled_throws env func args w error w1 :
  Function.call func args w = (Thrown error, w1) ->
  let handled :=
    handleError env false error (Some (fresh (dom (heap w1))))
      (allocated (wrapperContext func args) w1) in
  getErrorHandled env func args w =
  (match fst handled with
   | Returned _ => Thrown error
   | Thrown reason => Thrown reason
   end, snd handled).
Proof.
  intros Hcall handled. unfold getErrorHandled, try_catch. rewrite Hcall.
  unfold bind at 1. unfold alloc. unfold bind.
  change (handleError env false error (Some (fresh (dom (heap w1))))
            (with_heap _ w1)) with handled.
  destruct handled as [[[]|reason] w3]; reflexivity.
Qed.

Lemma getErrorHandledSync_throws env func args w error w1 :
  Function.call func args w = (Thrown error, w1) ->
  let handled :=
    handleError env false error (Some (fresh (dom (heap w1))))
      (allocated (wrapperContext func args) w1) in
  getErrorHandledSync env func args w =
  (Returned VUndefined,
   with_unhandledRejections
     (unhandledRejections (snd handled) ++
      [match fst handled with
       | Returned _ => error
       | Thrown reason => reason
       end]) (snd handled)).
Proof.
  intros Hcall handled. unfold getErrorHandledSync, try_catch. rewrite Hcall.
  unfold bind at 1. unfold alloc. unfold bind at 1.
  unfold detach, then_, bind.
  change (handleError env false error (Some (fresh (dom (heap w1))))
            (with_heap _ w1)) with handled.
  destruct handled as [[[]|reason] w3]; reflexivity.
Qed.

(** X6. When the wrapped operation throws a stored error, both wrappers
    leave in the log, right after what the operation left there, one entry
    for the error whose [more] names the operation under [functionName] and
    holds the arguments of the call under [functionArgs], whatever the
    collaborators do afterwards. *)
Theorem wrappers_record_the_call env func args w error w1
    (Hcall : Function.call func args w = (Thrown error, w1))
    (Hstore : shouldNotStore error = false) :
  let errorLogObj := recorded error (fresh (dom (heap w1))) in
  let recorded_by (r : Outcome Val * World) :=
    errorLog (snd r) = errorLog w1 ++ [errorLogObj]
    /\ more_property errorLogObj (snd r) "functionName" = Some (VStr (Function.name func))
    /\ more_property errorLogObj (snd r) "functionArgs" = Some (VArr args) in
  recorded_by (getErrorHandled env func args w)
  /\ recorded_by (getErrorHandledSync env func args w).
Proof.
  intros errorLogObj recorded_by. subst recorded_by. cbv beta.
  pose proof (handled_context env error (wrapperContext func args) w1 Hstore)
    as [Hrecorded Hprops].
  cbv zeta in Hrecorded, Hprops.
  rewrite (getErrorHandled_throws env func args w error w1 Hcall).
  rewrite (getErrorHandledSync_throws env func args w error w1 Hcall).
  cbn [snd].
  pose proof (Hprops "functionName" ltac:(discriminate)) as Hname.
  pose proof (Hprops "functionArgs" ltac:(discriminate)) as Hargs.
  split; (split; [exact Hrecorded|]); split; assumption.
Qed.

Lemma wrappers_record_the_call_witness :
  let r := getErrorHandledSync offline_env failing [VNum 7] empty_world in
  more_property (recorded validation_error (fresh (dom (heap empty_world)))) (snd r)
    "functionName" = Some (VStr "save")
  /\ more_property (recorded validation_error (fresh (dom (heap empty_world)))) (snd r)
    "functionArgs" = Some (VArr [VNum 7]).
Proof.
  destruct (wrappers_record_the_call offline_env failing [VNum 7] empty_world
              validation_error empty_world eq_refl eq_refl)
    as [_ (_ & Hname & Hargs)].
  split; [exact Hname | exact Hargs].
Defined.

(** X7. An error that opts out of storing goes through the wrappers
    untouched by the pipeline: nothing is logged, sent or shown, whatever the
    environment; the only trace of the call is its context object. The
    asynchronous wrapper throws the error on, and the synchronous one returns
    [undefined] and leaves the error as an unhandled rejection. *)
Theorem wrappers_pass_on_unstored env func args w error w1
    (Hcall : Function.call func args w = (Thrown error, w1))
    (Hskip : shouldNotStore error = true) :
  let w2 := allocated (wrapperContext func args) w1 in
  getErrorHandled env func args w = (Thrown error, w2)
  /\ getErrorHandledSync env func args w =
     (Returned VUndefined,
      with_unhandledRejections (unhandledRejections w1 ++ [error]) w2)
  /\ errorLog w2 = errorLog w1
  /\ trace w2 = trace w1.
Proof.
  intros w2.
  rewrite (getErrorHandled_throws env func args w error w1 Hcall).
  rewrite (getErrorHandledSync_throws env func args w error w1 Hcall).
  rewrite handleError_skips by exact Hskip. fold w2.
  cbn [fst snd console].
  assert (Hw2 : with_trace (trace w2 ++ []) w2 = w2).
  { unfold with_trace. rewrite app_nil_r. reflexivity. }
  rewrite Hw2. repeat split; reflexivity.
Qed.

Lemma wrappers_pass_on_unstored_witness :
  fst (getErrorHandled offline_env
         (Function.mk "quiet" (fun _ => throw silent_error)) [] empty_world) =
  Thrown silent_error
  /\ errorLog (snd (getErrorHandled offline_env
         (Function.mk "quiet" (fun _ => throw silent_error)) [] empty_world)) = [].
Proof.
  destruct (wrappers_pass_on_unstored offline_env
              (Function.mk "quiet" (fun _ => throw silent_error)) [] empty_world
              silent_error empty_world eq_refl eq_refl) as (Hasync & _ & _ & _).
  rewrite Hasync. split; reflexivity.
Defined.

Lemma handleError_only_heap env error l w l' :
  l' <> l ->
  heap (snd (handleError env false error (Some l) w)) !! l' = heap w !! l'.
Proof.
  intros Hne. rewrite handleError_heap.
  destruct (shouldNotStore error); [reflexivity|].
  apply merge_cause_other, Hne.
Qed.

(** X8. Wrapping twice handles twice: when the operation throws a stored
    error and the collaborators resolve, the wrapper of a wrapper throws the
    original error to its caller after two entries for it have been added to
    the log and two toasts shown; the second entry names [errorHandled], the
    inner wrapper, as the failing operation. Nothing recognises a repeat. *)
Theorem nested_wrappers_handle_twice env func args w error w1
    (Hcall : Function.call func args w = (Thrown error, w1))
    (Hstore : shouldNotStore error = false)
    (Hipc : forall body, ipcInvoke_rejects env SEND_ERROR body = None)
    (Htoast : forall props, showToast_rejects env props = None) :
  let r := getErrorHandled env (errorHandled env func) args w in
  fst r = Thrown error
  /\ exists first second,
       errorLog (snd r) = errorLog w1 ++ [first; second]
       /\ ErrorLog.name first = Error.name error
       /\ ErrorLog.name second = Error.name error
       /\ ErrorLog.stack first = ErrorLog.stack second
       /\ more_property first (snd r) "functionName" = Some (VStr (Function.name func))
       /\ more_property second (snd r) "functionName" = Some (VStr "errorHandled")
       /\ length (toasts (trace (snd r))) = 2 + length (toasts (trace w1)).
Proof.
  intros r. subst r.
  set (l1 := fresh (dom (heap w1))).
  set (w2 := allocated (wrapperContext func args) w1).
  set (inner := handleError env false error (Some l1) w2).
  assert (Hinner : getErrorHandled env func args w = (Thrown error, snd inner)).
  { rewrite (getErrorHandled_throws env func args w error w1 Hcall).
    fold l1 w2 inner.
    pose proof (handleError_frame env false error (Some l1) w2) as (_ & _ & _ & Hret).
    cbv zeta in Hret. fold inner in Hret. rewrite (Hret Hipc Htoast). reflexivity. }
  set (w3 := snd inner) in *.
  set (l2 := fresh (dom (heap w3))).
  set (w4 := allocated (wrapperContext (errorHandled env func) args) w3).
  set (outer := handleError env false error (Some l2) w4).
  assert (Houter : getErrorHandled env (errorHandled env func) args w =
                   (Thrown error, snd outer)).
  { rewrite (getErrorHandled_throws env (errorHandled env func) args w error w3 Hinner).
    fold l2 w4 outer.
    pose proof (handleError_frame env false error (Some l2) w4) as (_ & _ & _ & Hret).
    cbv zeta in Hret. fold outer in Hret. rewrite (Hret Hipc Htoast). reflexivity. }
  rewrite Houter. cbn [fst snd].
  pose proof (handled_context env error (wrapperContext func args) w1 Hstore)
    as [Hlog1 Hprops1].
  pose proof (handled_context env error (wrapperContext (errorHandled env func) args)
                w3 Hstore) as [Hlog2 Hprops2].
  cbv zeta in Hlog1, Hprops1, Hlog2, Hprops2.
  fold l1 w2 inner w3 in Hlog1, Hprops1. fold l2 w4 outer in Hlog2, Hprops2.
  split; [reflexivity|].
  exists (recorded error l1), (recorded error l2).
  split; [rewrite Hlog2, Hlog1, <- app_assoc; reflexivity|].
  split; [reflexivity|]. split; [reflexivity|]. split; [reflexivity|].
  assert (Hl1 : is_Some (heap w3 !! l1)).
  { subst w3 inner. rewrite handleError_heap, Hstore. cbn [context_loc context_heap].
    rewrite (merge_cause_lookup error l1 (wrapperContext func args))
      by apply lookup_insert_eq. eauto. }
  split; [|split].
  - unfold more_property. cbn [recorded ErrorLog.more mbind option_bind].
    pose proof (handleError_only_heap env error l2 w4 l1) as Hkeep.
    fold outer in Hkeep. rewrite Hkeep.
    + unfold w4, allocated, with_heap. cbn [heap]. fold l2.
      rewrite lookup_insert_ne by (symmetry; apply fresh_not_present, Hl1).
      specialize (Hprops1 "functionName" ltac:(discriminate)).
      unfold more_property in Hprops1.
      cbn [recorded ErrorLog.more mbind option_bind] in Hprops1.
      exact Hprops1.
    + apply fresh_not_present, Hl1.
  - apply (Hprops2 "functionName"). discriminate.
  - unfold outer.
    rewrite (handleError_resolved env false error (Some l2) w4 Hstore Hipc Htoast).
    unfold with_trace, recorded_world; cbn [snd trace console].
    rewrite !toasts_app, toasts_report_events. simpl. rewrite !app_nil_r.
    change (trace w4) with (trace w3). subst w3 inner.
    rewrite (handleError_resolved env false error (Some l1) w2 Hstore Hipc Htoast).
    unfold with_trace, recorded_world; cbn [snd trace console].
    rewrite !toasts_app, toasts_report_events. simpl. rewrite !app_nil_r.
    change (trace w2) with (trace w1). rewrite !length_app. simpl. lia.
Qed.

Lemma nested_wrappers_handle_twice_witness :
  let r := getErrorHandled plain_env (errorHandled plain_env failing) [VNum 7] empty_world in
  fst r = Thrown validation_error
  /\ length (errorLog (snd r)) = 2
  /\ length (toasts (trace (snd r))) = 2.
Proof.
  destruct (nested_wrappers_handle_twice plain_env failing [VNum 7] empty_world
              validation_error empty_world eq_refl eq_refl
              (fun _ => eq_refl) (fun _ => eq_refl))
    as (Hout & first & second & Hlog & _ & _ & _ & _ & _ & Htoasts).
  split; [exact Hout|]. split; [cbv zeta; rewrite Hlog; reflexivity | exact Htoasts].
Defined.

(** X9. What the collector is told about the context is read after the
    cause has been merged into it: for a stored error with a stack and a
    context object [o], the one payload [handleError] sends has, as [more],
    the serialisation of [o] with the error's truthy cause under [cause] (of
    [o] itself when the cause is not truthy), taken in the store as
    [handleError] leaves it, and the platform, version, language, instance,
    open count and country code of [fyo.store]. *)
Theorem report_carries_merged_context env logToConsole error l o w
    (Hstore : shouldNotStore error = false)
    (Hstack : truthy (Error.stack error) = true)
    (Hctx : heap w !! l = Some o) :
  let r := handleError env logToConsole error (Some l) w in
  let o' := if truthy (Error.cause error) then <["cause" := Error.cause error]> o else o in
  exists body,
    sends (trace (snd r)) = sends (trace w) ++ [(SEND_ERROR, body)]
    /\ heap (snd r) !! l = Some o'
    /\ ReportBody.more body = stringifyCircular env (heap (snd r)) o'
    /\ ReportBody.platform body = Store.platform (store w)
    /\ ReportBody.version body = Store.appVersion (store w)
    /\ ReportBody.language body = Store.language (store w)
    /\ ReportBody.instance_id body = Store.instanceId (store w)
    /\ ReportBody.open_count body = Store.openCount (store w)
    /\ ReportBody.country_code body = Store.countryCode (store w).
Proof.
  intros r o'. subst r.
  pose proof (handleError_stored_world env logToConsole error (Some l) w Hstore)
    as (_ & Hheap & _ & _ & Hsends).
  cbv zeta in Hheap, Hsends. rewrite Hstack in Hsends.
  assert (Hl : heap (snd (handleError env logToConsole error (Some l) w)) !! l = Some o').
  { rewrite Hheap. unfold recorded_world. cbn [heap context_loc context_heap].
    apply merge_cause_lookup, Hctx. }
  eexists. split; [exact Hsends|]. split; [exact Hl|].
  split; [|repeat split; reflexivity].
  unfold reportBody. cbn [ReportBody.more recorded ErrorLog.more context_loc].
  rewrite <- Hheap, Hl. reflexivity.
Qed.

Lemma report_carries_merged_context_witness :
  let r := handleError plain_env false caused_error (Some 0) plain_world in
  heap (snd r) !! 0 = Some (<["cause" := VStr "disk full"]> plain_context)
  /\ length (sends (trace (snd r))) = 1.
Proof.
  destruct (report_carries_merged_context plain_env false caused_error 0 plain_context
              plain_world eq_refl eq_refl eq_refl) as (body & Hsends & Hl & _).
  split; [exact Hl|]. exact (f_equal (@length _) Hsends).
Defined.

(** ** The composer of issue reports *)

Lemma escape_app (a b : string) : escape (a +:+ b) = escape a +:+ escape b.
Proof.
  induction a as [|x a IH]; [reflexivity|].
  change (String x a +:+ b) with (String x (a +:+ b)). cbn [escape].
  rewrite IH. symmetry. apply append_assoc.
Qed.

Lemma all_chars_app p (a b : string) :
  all_chars p (a +:+ b) = all_chars p a && all_chars p b.
Proof.
  induction a as [|x a IH]; simpl; [reflexivity|].
  rewrite IH. apply andb_assoc.
Qed.

Lemma percent_encode_chars (c : ascii) : all_chars url_char (percent_encode c) = true.
Proof. destruct c as [[] [] [] [] [] [] [] []]; vm_compute; reflexivity. Qed.

Lemma escape_chars (s : string) : all_chars url_char (escape s) = true.
Proof.
  induction s as [|c s IH]; [reflexivity|].
  cbn [escape]. rewrite all_chars_app, IH, andb_true_r.
  destruct (uri_kept c) eqn:Hkept.
  - cbn [all_chars]. unfold url_char. rewrite Hkept. reflexivity.
  - apply percent_encode_chars.
Qed.

Lemma escape_kept (s : string) : all_chars uri_kept s = true -> escape s = s.
Proof.
  induction s as [|c s IH]; [reflexivity|].
  cbn [all_chars escape]. intros Hall. apply andb_true_iff in Hall as [Hc Hs].
  rewrite Hc, (IH Hs). reflexivity.
Qed.

Lemma utf8_run_app st (a b : string) :
  utf8_run st (a +:+ b) =
  match utf8_run st a with
  | Some st' => utf8_run st' b
  | None => None
  end.
Proof.
  revert st. induction a as [|c a IH]; intros st; [reflexivity|].
  change (String c a +:+ b) with (String c (a +:+ b)). cbn [utf8_run].
  destruct (utf8_step st (nat_of_ascii c)); [apply IH | reflexivity].
Qed.

Lemma wellFormed_run (s : string) :
  wellFormed s = true <-> utf8_run Boundary s = Some Boundary.
Proof.
  unfold wellFormed. destruct (utf8_run Boundary s) as [[]|]; split; congruence.
Qed.

Lemma wellFormed_app_l (a b : string) :
  wellFormed a = true -> wellFormed (a +:+ b) = wellFormed b.
Proof.
  intros Ha. apply wellFormed_run in Ha.
  unfold wellFormed. rewrite utf8_run_app, Ha. reflexivity.
Qed.

Lemma wellFormed_app (a b : string) :
  wellFormed a = true -> wellFormed b = true -> wellFormed (a +:+ b) = true.
Proof. intros Ha Hb. rewrite wellFormed_app_l; assumption. Qed.

Lemma wellFormed_concat (sep : string) (lines : list string) :
  wellFormed sep = true ->
  Forall (fun line => wellFormed line = true) lines ->
  wellFormed (String.concat sep lines) = true.
Proof.
  intros Hsep Hlines. induction Hlines as [|x xs Hx Hxs IH]; [reflexivity|].
  destruct xs as [|y ys]; [exact Hx|].
  change (String.concat sep (x :: y :: ys))
    with (x +:+ sep +:+ String.concat sep (y :: ys)).
  repeat apply wellFormed_app; assumption.
Qed.

(** After a byte below 128 a reader of UTF-8 is at a boundary, or has
    failed; in the middle of a character such a byte makes it fail. *)
Lemma utf8_step_ascii st (c : ascii) :
  (nat_of_ascii c < 128)%nat ->
  utf8_step st (nat_of_ascii c) =
  match st with
  | Boundary => Some Boundary
  | _ => None
  end.
Proof.
  intros Hc. apply Nat.ltb_lt in Hc as Hlt.
  destruct st; unfold utf8_step, between; rewrite ?Hlt; try reflexivity.
  all: destruct (Nat.leb_spec 128 (nat_of_ascii c)) as [Hge|_]; [lia|];
       destruct (Nat.leb_spec 160 (nat_of_ascii c)) as [Hge|_]; [lia|];
       destruct (Nat.leb_spec 144 (nat_of_ascii c)) as [Hge|_]; [lia|];
       reflexivity.
Qed.

Lemma utf8_run_ascii_end st (s : string) (c : ascii) :
  (nat_of_ascii c < 128)%nat ->
  utf8_run st (s +:+ String c "") = None \/ utf8_run st (s +:+ String c "") = Some Boundary.
Proof.
  intros Hc. rewrite utf8_run_app.
  destruct (utf8_run st s) as [st'|]; [|left; reflexivity].
  cbn [utf8_run]. rewrite (utf8_step_ascii st' c Hc).
  destruct st'; auto.
Qed.

Lemma ill_formed_before_ascii (m rest : string) (c : ascii) :
  wellFormed m = false -> (nat_of_ascii c < 128)%nat ->
  utf8_run Boundary (m +:+ String c rest) = None.
Proof.
  intros Hm Hc. rewrite utf8_run_app. unfold wellFormed in Hm.
  destruct (utf8_run Boundary m) as [st|]; [|reflexivity].
  cbn [utf8_run]. rewrite (utf8_step_ascii st c Hc).
  destruct st; try reflexivity. discriminate Hm.
Qed.

Lemma issueBody_head sh errorLogObj :
  exists line tail,
    issueBody sh errorLogObj =
    "<h2>Description</h2>" :: "Add some description..." :: "" :: line :: tail.
Proof.
  unfold issueBody.
  destruct errorLogObj as [e|]; [destruct (truthy (ErrorLog.stack e))|];
    destruct (truthy (Store.countryCode (store (world sh))));
    eexists _, _; reflexivity.
Qed.

Lemma issueBody_some sh e :
  exists tail,
    issueBody sh (Some e) =
    "<h2>Description</h2>" :: "Add some description..." :: ""
    :: "<h2>Error Info</h2>" :: ""
    :: ("**Error**: _" +:+ toString (ErrorLog.name e) +:+ ": "
        +:+ toString (ErrorLog.message e) +:+ "_")
    :: "" :: tail.
Proof.
  unfold issueBody.
  destruct (truthy (ErrorLog.stack e));
    destruct (truthy (Store.countryCode (store (world sh))));
    eexists; reflexivity.
Qed.

(** The text of the URL, for an entry: the head of the error line, the
    message, and what follows it. *)
Lemma issueUrl_some sh e :
  exists rest,
    issueUrl sh (Some e) =
    errorLinePrefix e +:+ toString (ErrorLog.message e) +:+ String "_" rest.
Proof.
  unfold issueUrl. destruct (issueBody_some sh e) as (tail & ->).
  exists (newline +:+ String.concat newline ("" :: tail)).
  unfold errorLinePrefix. cbn [String.concat].
  rewrite !append_assoc. reflexivity.
Qed.

Lemma issueBody_wellFormed sh errorLogObj :
  Forall (fun v => wellFormed (toString v) = true) (issueFields sh errorLogObj) ->
  Forall (fun line => wellFormed line = true) (issueBody sh errorLogObj).
Proof.
  intros Hfields. unfold issueFields in Hfields. unfold issueBody.
  destruct errorLogObj as [e|]; cbn [app] in Hfields;
    repeat match goal with
           | H : Forall _ (_ :: _) |- _ => apply Forall_cons in H as [? H]
           end;
    [destruct (truthy (ErrorLog.stack e))|];
    destruct (truthy (Store.countryCode (store (world sh))));
    cbn [app];
    repeat (apply Forall_cons; split;
            [first [reflexivity | assumption
                   | repeat (apply wellFormed_app; [first [reflexivity|assumption]|]);
                     first [reflexivity|assumption]]|]);
    apply Forall_nil_2.
Qed.

(** X10. [getIssueUrlQuery] either returns a URL or throws the [URIError]
    of [encodeURI], and it throws exactly when the text to encode is not
    well-formed. A URL it returns starts with the address of the tracker,
    the label parameter and the encoded description, and is made of nothing
    but the characters [encodeURI] keeps and the percent sign. It returns one
    whenever the texts it may write (name, message and stack of the entry,
    version, platform, path, language, country code) are well-formed, and
    throws when the message of the entry is a string that is not. *)
Theorem getIssueUrlQuery_shape sh errorLogObj :
  match getIssueUrlQuery sh errorLogObj with
  | Returned url =>
      wellFormed (issueUrl sh errorLogObj) = true
      /\ (exists rest,
            url =
            "https://github.com/frappe/books/issues/new?labels=bug&body=%3Ch2%3EDescription%3C/h2%3E%0AAdd%20some%20description...%0A%0A"
            +:+ rest)
      /\ all_chars url_char url = true
  | Thrown error =>
      error = uriError /\ wellFormed (issueUrl sh errorLogObj) = false
  end
  /\ (Forall (fun v => wellFormed (toString v) = true) (issueFields sh errorLogObj) ->
      exists url, getIssueUrlQuery sh errorLogObj = Returned url)
  /\ (forall e m, errorLogObj = Some e -> ErrorLog.message e = VStr m ->
      wellFormed m = false ->
      getIssueUrlQuery sh errorLogObj = Thrown uriError).
Proof.
  split; [|split].
  - unfold getIssueUrlQuery, encodeURI.
    destruct (wellFormed (issueUrl sh errorLogObj)); [|split; reflexivity].
    split; [reflexivity|]. split; [|apply escape_chars].
    unfold issueUrl.
    destruct (issueBody_head sh errorLogObj) as (line & tail & ->).
    change (String.concat "&"
              [baseUrl;
               "body=" +:+ String.concat newline
                 ("<h2>Description</h2>" :: "Add some description..." :: "" :: line :: tail)])
      with ((baseUrl +:+ "&body=<h2>Description</h2>" +:+ newline
             +:+ "Add some description..." +:+ newline +:+ newline)
            +:+ String.concat newline (line :: tail)).
    rewrite escape_app. eexists. reflexivity.
  - intros Hfields. unfold getIssueUrlQuery, encodeURI.
    assert (Hwf : wellFormed (issueUrl sh errorLogObj) = true).
    { unfold issueUrl. cbn [String.concat].
      repeat (apply wellFormed_app; [reflexivity|]).
      apply wellFormed_concat; [reflexivity|].
      apply issueBody_wellFormed, Hfields. }
    rewrite Hwf. eexists. reflexivity.
  - intros e m -> Hmessage Hm. unfold getIssueUrlQuery, encodeURI.
    destruct (issueUrl_some sh e) as (rest & Htext).
    assert (Hwf : wellFormed (issueUrl sh (Some e)) = false).
    { rewrite Htext, Hmessage. cbn [toString]. unfold wellFormed.
      rewrite utf8_run_app.
      assert (Hprefix : utf8_run Boundary (errorLinePrefix e) = None
                        \/ utf8_run Boundary (errorLinePrefix e) = Some Boundary).
      { unfold errorLinePrefix.
        replace (baseUrl +:+ "&body=" +:+ "<h2>Description</h2>" +:+ newline
                 +:+ "Add some description..." +:+ newline +:+ newline
                 +:+ "<h2>Error Info</h2>" +:+ newline +:+ newline
                 +:+ "**Error**: _" +:+ toString (ErrorLog.name e) +:+ ": ")
          with ((baseUrl +:+ "&body=" +:+ "<h2>Description</h2>" +:+ newline
                 +:+ "Add some description..." +:+ newline +:+ newline
                 +:+ "<h2>Error Info</h2>" +:+ newline +:+ newline
                 +:+ "**Error**: _" +:+ toString (ErrorLog.name e) +:+ ":")
                +:+ String " " "")
          by (rewrite !append_assoc; reflexivity).
        apply utf8_run_ascii_end. vm_compute. lia. }
      destruct Hprefix as [-> | ->]; [reflexivity|].
      rewrite (ill_formed_before_ascii m rest "_" Hm) by (vm_compute; lia).
      reflexivity. }
    rewrite Hwf. reflexivity.
Qed.

Lemma getIssueUrlQuery_shape_witness :
  (exists url, getIssueUrlQuery empty_shell None = Returned url)
  /\ getIssueUrlQuery empty_shell
       (Some (recorded surrogate_error 0)) = Thrown uriError.
Proof.
  split.
  - apply (proj1 (proj2 (getIssueUrlQuery_shape empty_shell None))).
    repeat (apply Forall_cons; split; [reflexivity|]). apply Forall_nil_2.
  - apply (proj2 (proj2 (getIssueUrlQuery_shape empty_shell
                           (Some (recorded surrogate_error 0))))
             (recorded surrogate_error 0) ("Bad input " +:+ lone_surrogate));
      reflexivity.
Defined.

(** X11. The body of an issue report has the "Error Info" heading exactly
    when an entry is given, and the "Stack" heading exactly when the entry
    given has a non-empty stack; in that case the stack stands between two
    code fences right after the heading. *)
Theorem issueBody_sections sh errorLogObj :
  (In "<h2>Error Info</h2>" (issueBody sh errorLogObj) <-> errorLogObj <> None)
  /\ (In "**Stack**:" (issueBody sh errorLogObj) <->
      exists e, errorLogObj = Some e /\ truthy (ErrorLog.stack e) = true)
  /\ (forall e, errorLogObj = Some e -> truthy (ErrorLog.stack e) = true ->
      exists before after,
        issueBody sh errorLogObj =
        before ++ ["**Stack**:"; "```"; toString (ErrorLog.stack e); "```"; ""] ++ after).
Proof.
  split; [|split].
  - split.
    + intros Hin ->. unfold issueBody in Hin.
      destruct (truthy (Store.countryCode (store (world sh)))); simpl in Hin;
        repeat destruct Hin as [Hin|Hin]; try discriminate Hin; exact Hin.
    + intros Hsome. destruct errorLogObj as [e|]; [|contradiction].
      destruct (issueBody_some sh e) as (tail & ->). simpl. tauto.
  - split.
    + intros Hin. destruct errorLogObj as [e|].
      * exists e. split; [reflexivity|].
        destruct (truthy (ErrorLog.stack e)) eqn:Hstack; [reflexivity|].
        unfold issueBody in Hin. rewrite Hstack in Hin.
        destruct (truthy (Store.countryCode (store (world sh)))); simpl in Hin;
          repeat destruct Hin as [Hin|Hin]; try discriminate Hin; contradiction.
      * unfold issueBody in Hin.
        destruct (truthy (Store.countryCode (store (world sh)))); simpl in Hin;
          repeat destruct Hin as [Hin|Hin]; try discriminate Hin; contradiction.
    + intros (e & -> & Hstack). unfold issueBody. rewrite Hstack.
      destruct (truthy (Store.countryCode (store (world sh)))); simpl; tauto.
  - intros e -> Hstack. unfold issueBody. rewrite Hstack.
    destruct (truthy (Store.countryCode (store (world sh))));
      eexists (_ :: _ :: _ :: _ :: _ :: _ :: [_]), _; reflexivity.
Qed.

(** X12. The message of the entry goes into the URL through [encodeURI]
    alone, which keeps the reserved characters: in every URL that is
    produced, a message made of kept characters stands as it is, right after
    the encoded head of the error line, so an ampersand or a hash sign of the
    message is an ampersand or a hash sign of the URL. *)
Theorem getIssueUrlQuery_keeps_reserved sh errorLogObj m url
    (Hmessage : ErrorLog.message errorLogObj = VStr m)
    (Hkept : all_chars uri_kept m = true)
    (Hurl : getIssueUrlQuery sh (Some errorLogObj) = Returned url) :
  exists after, url = escape (errorLinePrefix errorLogObj) +:+ m +:+ after.
Proof.
  unfold getIssueUrlQuery, encodeURI in Hurl.
  destruct (wellFormed (issueUrl sh (Some errorLogObj))); [|discriminate Hurl].
  assert (Hescaped : url = escape (issueUrl sh (Some errorLogObj))) by congruence.
  rewrite Hescaped. clear Hurl Hescaped.
  destruct (issueUrl_some sh errorLogObj) as (rest & Htext).
  rewrite Htext, Hmessage. cbn [toString].
  rewrite !escape_app, (escape_kept m Hkept).
  eexists. reflexivity.
Qed.

Lemma getIssueUrlQuery_keeps_reserved_witness :
  exists url after,
    getIssueUrlQuery empty_shell (Some ampersand_entry) = Returned url
    /\ url = escape (errorLinePrefix ampersand_entry) +:+ "a&b#c" +:+ after.
Proof.
  eexists. 
  destruct (getIssueUrlQuery_keeps_reserved empty_shell ampersand_entry "a&b#c" _
              eq_refl eq_refl eq_refl) as (after & Hafter).
  exists after. split; [reflexivity | exact Hafter].
Defined.

(** ** The callbacks *)

(** X13. The "Report" button of the dialog records the error again: it
    makes a new context object holding the display message and appends one
    more entry for the error to the log, without asking whether the error
    wants to be stored and without a remote report or a toast. Then it builds
    the issue URL of that entry: when there is one it sends one message to
    open it and returns; when [encodeURI] throws, the button throws that
    [URIError] and sends nothing, and the entry stays in the log. The action
    of a toast does the same for the entry it was made for, without touching
    the world, and "Cancel" does nothing. *)
Theorem report_button_records_again error errorMessage sh :
  let r := runCallback (ReportIssueOfError error errorMessage) sh in
  let errorLogObj := recorded error (fresh (dom (heap (world sh)))) in
  errorLog (world (snd r)) = errorLog (world sh) ++ [errorLogObj]
  /\ trace (world (snd r)) = trace (world sh)
  /\ more_property errorLogObj (world (snd r)) "errorMessage" = Some (VStr errorMessage)
  /\ match getIssueUrlQuery sh (Some errorLogObj) with
     | Returned url =>
         fst r = Returned tt /\ outbox (snd r) = outbox sh ++ [(OPEN_EXTERNAL, url)]
     | Thrown reason =>
         fst r = Thrown reason /\ outbox (snd r) = outbox sh
     end
  /\ (forall entry,
        let r' := runCallback (ReportIssue entry) sh in
        world (snd r') = world sh
        /\ match getIssueUrlQuery sh (Some entry) with
           | Returned url =>
               fst r' = Returned tt /\ outbox (snd r') = outbox sh ++ [(OPEN_EXTERNAL, url)]
           | Thrown reason =>
               fst r' = Thrown reason /\ outbox (snd r') = outbox sh
           end)
  /\ runCallback NoAction sh = (Returned tt, sh).
Proof.
  intros r errorLogObj. subst r.
  unfold runCallback, lift. cbv beta iota zeta delta [bind alloc].
  rewrite getErrorLogObject_run. fold errorLogObj.
  unfold reportIssue.
  set (sh' := with_world _ sh).
  change (getIssueUrlQuery sh' (Some errorLogObj))
    with (getIssueUrlQuery sh (Some errorLogObj)).
  assert (Hmore : more_property errorLogObj (world sh') "errorMessage" =
                  Some (VStr errorMessage)).
  { unfold more_property.
    cbn [errorLogObj recorded ErrorLog.more mbind option_bind heap sh' world with_world].
    rewrite (merge_cause_lookup error _ {[ "errorMessage" := VStr errorMessage ]})
      by apply lookup_insert_eq.
    cbn [mbind option_bind]. rewrite merged_property by discriminate. reflexivity. }
  split; [destruct (getIssueUrlQuery sh (Some errorLogObj)); reflexivity|].
  split; [destruct (getIssueUrlQuery sh (Some errorLogObj)); reflexivity|].
  split; [destruct (getIssueUrlQuery sh (Some errorLogObj)); exact Hmore|].
  split; [destruct (getIssueUrlQuery sh (Some errorLogObj)); split; reflexivity|].
  split; [|reflexivity].
  intros entry. cbv zeta. cbn [runCallback]. unfold reportIssue.
  destruct (getIssueUrlQuery sh (Some entry)); repeat split; reflexivity.
Qed.

(** The button on an error whose message has an unpaired surrogate: the
    entry is logged, the [URIError] comes out, nothing is sent. *)
Lemma report_button_records_again_witness :
  let r := runCallback (ReportIssueOfError surrogate_error "Bad input") empty_shell in
  fst r = Thrown uriError
  /\ length (errorLog (world (snd r))) = 1
  /\ outbox (snd r) = [].
Proof.
  destruct (report_button_records_again surrogate_error "Bad input" empty_shell)
    as (Hlog & _ & _ & Hurl & _).
  cbv zeta in Hurl.
  assert (Hthrown :
    getIssueUrlQuery empty_shell
      (Some (recorded surrogate_error (fresh (dom (heap (world empty_shell)))))) =
    Thrown uriError) by (vm_compute; reflexivity).
  rewrite Hthrown in Hurl. destruct Hurl as [Hout Hbox].
  split; [exact Hout|]. split; [|exact Hbox].
  exact (f_equal (@length _) Hlog).
Defined.

(** ** The gate and the dialog, the transport and the wrappers *)

(** X14. The gate silences the log, the report and the toast, not the
    dialog: for an error that opts out of storing, [handleErrorWithDialog]
    shows its dialog all the same and, when the dialog resolves, throws the
    error or returns as [dontThrow] says; nothing is logged or sent and no
    toast is shown, whatever the transport and the toast would do. *)
Theorem handleErrorWithDialog_unstored env error doc reportError dontThrow w
    (Hskip : shouldNotStore error = true)
    (Hdialog : forall options, showMessageDialog_rejects env options = None) :
  let r := handleErrorWithDialog env error doc reportError dontThrow w in
  fst r = (if truthy dontThrow then Returned tt else Thrown error)
  /\ dialogs (trace (snd r)) = dialogs (trace w) ++ [dialogOptions env error doc reportError]
  /\ errorLog (snd r) = errorLog w
  /\ sends (trace (snd r)) = sends (trace w)
  /\ toasts (trace (snd r)) = toasts (trace w).
Proof.
  intros r. subst r. rewrite handleErrorWithDialog_run.
  rewrite handleError_skips by exact Hskip. rewrite Hdialog.
  cbn [fst snd console].
  destruct (truthy dontThrow);
    unfold with_trace, allocated, with_heap; cbn [fst snd trace store errorLog].
  - destruct (Store.isDevelopment (store w));
      rewrite ?dialogs_app, ?sends_app, ?toasts_app; simpl; rewrite ?app_nil_r;
      repeat split; reflexivity.
  - rewrite ?dialogs_app, ?sends_app, ?toasts_app; simpl; rewrite ?app_nil_r.
    repeat split; reflexivity.
Qed.

Lemma handleErrorWithDialog_unstored_witness :
  let r := handleErrorWithDialog offline_env silent_error VUndefined VUndefined
             VUndefined empty_world in
  fst r = Thrown silent_error
  /\ length (dialogs (trace (snd r))) = 1
  /\ errorLog (snd r) = [].
Proof.
  destruct (handleErrorWithDialog_unstored offline_env silent_error VUndefined
              VUndefined VUndefined empty_world eq_refl (fun _ => eq_refl))
    as (Hout & Hdialogs & Hlog & _).
  split; [exact Hout|]. split; [|exact Hlog].
  exact (f_equal (@length _) Hdialogs).
Defined.

(** X15. A failing transport masks the original error in both wrappers:
    when the operation throws a stored error that has a stack and the
    transport rejects its report, the asynchronous wrapper throws the
    transport's reason instead of the error, and the synchronous wrapper
    returns [undefined] and leaves the transport's reason, not the error, as
    the unhandled rejection. The error is in the log in both cases. *)
Theorem wrappers_mask_on_transport_failure env func args w error w1 reason
    (Hcall : Function.call func args w = (Thrown error, w1))
    (Hstore : shouldNotStore error = false)
    (Hstack : truthy (Error.stack error) = true)
    (Hrejects : forall body, ipcInvoke_rejects env SEND_ERROR body = Some reason) :
  let async := getErrorHandled env func args w in
  let sync := getErrorHandledSync env func args w in
  fst async = Thrown reason
  /\ fst sync = Returned VUndefined
  /\ unhandledRejections (snd sync) = unhandledRejections w1 ++ [reason]
  /\ errorLog (snd async) = errorLog w1 ++ [recorded error (fresh (dom (heap w1)))]
  /\ errorLog (snd sync) = errorLog w1 ++ [recorded error (fresh (dom (heap w1)))].
Proof.
  intros async sync. subst async sync.
  rewrite (getErrorHandled_throws env func args w error w1 Hcall).
  rewrite (getErrorHandledSync_throws env func args w error w1 Hcall).
  pose proof (handled_context env error (wrapperContext func args) w1 Hstore)
    as [Hlog _].
  cbv zeta in Hlog.
  pose proof (handleError_frame env false error (Some (fresh (dom (heap w1))))
                (allocated (wrapperContext func args) w1)) as (_ & _ & Hur & _).
  cbv zeta in Hur.
  change (unhandledRejections (allocated (wrapperContext func args) w1))
    with (unhandledRejections w1) in Hur.
  assert (Hout : fst (handleError env false error (Some (fresh (dom (heap w1))))
                        (allocated (wrapperContext func args) w1)) = Thrown reason).
  { rewrite (handleError_rejected env false error _ _ reason Hstore Hstack Hrejects).
    reflexivity. }
  set (handled := handleError _ _ _ _ _) in *. clearbody handled.
  cbn [fst snd]. rewrite Hout.
  unfold with_unhandledRejections; cbn [unhandledRejections errorLog].
  rewrite Hur. repeat split; try reflexivity; exact Hlog.
Qed.

Lemma wrappers_mask_on_transport_failure_witness :
  fst (getErrorHandled offline_env failing [] empty_world) = Thrown offline_reason
  /\ unhandledRejections (snd (getErrorHandledSync offline_env failing [] empty_world)) =
     [offline_reason].
Proof.
  destruct (wrappers_mask_on_transport_failure offline_env failing [] empty_world
              validation_error empty_world offline_reason eq_refl eq_refl eq_refl
              (fun _ => eq_refl)) as (Hasync & _ & Hsync & _).
  split; [exact Hasync | exact Hsync].
Defined.
